(** * A Cloudflare worker for website submissions: model and properties

    The worker ([src/worker.js]) answers HTTP requests.  API requests read,
    modify and write back one JSON array stored under the key ["websites"]
    of a key-value namespace; every other request is answered from the same
    namespace as a static file.

    The embedding is shallow.  JavaScript values are an inductive type, the
    key-value namespace is a finite map from keys to texts, every handler is
    a function from its arguments and the environment to a response and the
    environment it leaves behind, and a [try]/[catch] is a match on an
    optional result ([None]: an exception was thrown).  The built-ins of the
    JavaScript runtime the worker calls ([JSON.parse], [JSON.stringify], the
    coercions of compound operands) are operations of a [Host]; the laws the
    proofs use are stated in [HostLaws], and [Reference] builds a host that
    satisfies them, so that every handler runs on concrete inputs. *)

From Stdlib Require Import ZArith Ascii String List Bool Lia.
From Stdlib Require Import DecimalString DecimalZ DecimalPos DecimalFacts.
From stdpp Require Import base option list strings gmap.

Local Open Scope string_scope.

(** ** JavaScript values *)

(** The values the worker handles: what [JSON.parse] returns, and
    [undefined] (a field the request body does not have, a hole of an
    array).  An object is the list of its own properties in insertion
    order.

    A number of the runtime is a double.  [JSON.parse] returns every double
    but NaN, and they are told apart by what the worker's operations tell
    apart:
    - [VNum n], the number whose value is the integer [n];
    - [VFrac negative whole digits], a finite number that is no integer, in
      decimal notation: its sign, its integer part and the digits after the
      decimal point, the last of which is not 0.  The digits are kept as
      the positive number they spell from right to left, so that every such
      number has one representation: 0.25 is [VFrac false 0 52] and -3.05
      is [VFrac true 3 50];
    - [VNegZero], the negative zero that the literal [-0] denotes;
    - [VInf negative], the infinity that a literal beyond the range of the
      doubles denotes ([1e999], [-1e999]).
    The type has a number for every integer and every decimal fraction,
    which is more than the doubles: a theorem about every value holds of
    the values of the runtime among them. *)
#[warnings="-register-all"]
Inductive value : Type :=
| VUndefined
| VNull
| VBool (b : bool)
| VNum (n : Z)
| VFrac (negative : bool) (whole : N) (digits : positive)
| VNegZero
| VInf (negative : bool)
| VStr (s : string)
| VArr (elems : list value)
| VObj (fields : list (string * value)).

(** Induction over values, with the hypothesis for every element of an
    array and every property of an object. *)
Definition value_ind' (P : value → Prop)
    (Hundef : P VUndefined) (Hnull : P VNull)
    (Hbool : ∀ b, P (VBool b)) (Hnum : ∀ n, P (VNum n))
    (Hfrac : ∀ negative whole digits, P (VFrac negative whole digits))
    (Hzero : P VNegZero) (Hinf : ∀ negative, P (VInf negative))
    (Hstr : ∀ s, P (VStr s))
    (Harr : ∀ l, Forall P l → P (VArr l))
    (Hobj : ∀ fs, Forall (λ kv, P kv.2) fs → P (VObj fs)) : ∀ v, P v :=
  fix go (v : value) : P v :=
    match v with
    | VUndefined => Hundef
    | VNull => Hnull
    | VBool b => Hbool b
    | VNum n => Hnum n
    | VFrac negative whole digits => Hfrac negative whole digits
    | VNegZero => Hzero
    | VInf negative => Hinf negative
    | VStr s => Hstr s
    | VArr l =>
        Harr l ((fix elems (l : list value) : Forall P l :=
                   match l with
                   | [] => Forall_nil_2 P
                   | x :: l' => Forall_cons_2 P x l' (go x) (elems l')
                   end) l)
    | VObj fs =>
        Hobj fs ((fix props (fs : list (string * value)) : Forall (λ kv, P kv.2) fs :=
                    match fs with
                    | [] => Forall_nil_2 _
                    | kv :: fs' => Forall_cons_2 _ kv fs' (go kv.2) (props fs')
                    end) fs)
    end.

Definition is_undefined (v : value) : bool :=
  match v with VUndefined => true | _ => false end.

(** [is_json v]: [v] is a value that [JSON.parse] can return, with no
    [undefined] inside. *)
Fixpoint is_json (v : value) : bool :=
  match v with
  | VUndefined => false
  | VArr l => forallb is_json l
  | VObj fs => forallb (λ kv, is_json kv.2) fs
  | _ => true
  end.

(** What [JSON.stringify] serialises of a value: an [undefined] element of
    an array is written as [null], a property whose value is [undefined] is
    left out, an infinity is written as [null] and the negative zero as
    [0]. *)
Fixpoint to_json (v : value) : value :=
  match v with
  | VInf _ => VNull
  | VNegZero => VNum 0
  | VArr l =>
      VArr (map (λ x, if is_undefined x then VNull else to_json x) l)
  | VObj fs =>
      VObj (omap (λ kv, if is_undefined kv.2 then None
                        else Some (kv.1, to_json kv.2)) fs)
  | _ => v
  end.

(** [json_stable v]: [JSON.stringify] writes [v] as it is, so that it is
    read back unchanged: [v] holds no [undefined], no infinity and no
    negative zero. *)
Fixpoint json_stable (v : value) : bool :=
  match v with
  | VUndefined | VNegZero | VInf _ => false
  | VArr l => forallb json_stable l
  | VObj fs => forallb (λ kv, json_stable kv.2) fs
  | _ => true
  end.

(** What [JSON.stringify] writes for an element of an array. *)
Definition serialised_element (x : value) : value :=
  if is_undefined x then VNull else to_json x.

(** [a === b].  Primitives are compared by type and value; the two zeros
    are equal.  Two objects or arrays are equal only when they are the same
    object; the operands of the worker's one comparison come out of two
    different [JSON.parse] calls, so they never are. *)
Definition strict_eq (a b : value) : bool :=
  match a, b with
  | VUndefined, VUndefined => true
  | VNull, VNull => true
  | VBool x, VBool y => Bool.eqb x y
  | VNum x, VNum y => Z.eqb x y
  | VNum x, VNegZero | VNegZero, VNum x => Z.eqb x 0
  | VNegZero, VNegZero => true
  | VFrac s w d, VFrac s' w' d' => Bool.eqb s s' && N.eqb w w' && Pos.eqb d d'
  | VInf s, VInf s' => Bool.eqb s s'
  | VStr x, VStr y => String.eqb x y
  | _, _ => false
  end.

(** The value of the own property [k], the last one when a JSON text
    repeats the key. *)
Fixpoint lookup_field (k : string) (fs : list (string * value)) : option value :=
  match fs with
  | [] => None
  | (k', v) :: fs' =>
      match lookup_field k fs' with
      | Some w => Some w
      | None => if String.eqb k k' then Some v else None
      end
  end.

(** [o.k] for the property names the worker reads ([action], [data],
    [index], [id]), which no prototype defines: [None] is the TypeError of
    reading a property of [null] or [undefined]; a missing property is
    [undefined]. *)
Definition get_field (o : value) (k : string) : option value :=
  match o with
  | VUndefined | VNull => None
  | VObj fs => Some (default VUndefined (lookup_field k fs))
  | _ => Some VUndefined
  end.

(** [index >= 0] and [index < length] for an index that is a primitive
    other than a string.  The comparison converts the index with ToNumber:
    [undefined] becomes NaN, which fails every comparison, [null] becomes 0
    and a boolean 0 or 1.  A number that is no integer lies strictly
    between its integer part and the next integer away from zero. *)
Definition at_least_zero (index : value) : bool :=
  match index with
  | VNull | VBool _ | VNegZero => true
  | VNum n => (0 <=? n)%Z
  | VFrac negative _ _ | VInf negative => negb negative
  | _ => false
  end.

Definition less_than (index : value) (length : nat) : bool :=
  match index with
  | VNull | VNegZero => (0 <? length)%nat
  | VBool b => ((if b then 1 else 0) <? length)%nat
  | VNum n => (n <? Z.of_nat length)%Z
  | VFrac negative whole _ => negative || (whole <? N.of_nat length)%N
  | VInf negative => negative
  | _ => false
  end.

(** [a[k] = v] on the elements of an array: in range the element is
    replaced, beyond the end the array grows and the positions in between
    are holes. *)
Definition array_set (l : list value) (k : nat) (v : value) : list value :=
  if (k <? List.length l)%nat then <[k:=v]> l
  else l ++ replicate (k - List.length l) VUndefined ++ [v].

(** ** Strings *)

Fixpoint startsWith (s p : string) {struct p} : bool :=
  match p with
  | EmptyString => true
  | String c p' =>
      match s with
      | EmptyString => false
      | String d s' => Ascii.eqb d c && startsWith s' p'
      end
  end.

Definition endsWith (s p : string) : bool :=
  startsWith (String.rev s) (String.rev p).

(** [s.slice(1)] *)
Definition slice1 (s : string) : string :=
  match s with
  | EmptyString => EmptyString
  | String _ s' => s'
  end.

(** A string is truthy when it is not empty. *)
Definition truthy (s : string) : bool :=
  match s with
  | EmptyString => false
  | String _ _ => true
  end.

(** ** Requests, responses and the environment *)

Record Request := {
  method : string;
  pathname : string;      (* [new URL(request.url).pathname] *)
  text : string           (* the body *)
}.

Record Response := {
  body : string;
  status : nat;
  headers : list (string * string)
}.

(** [env.WEBSITES_KV]: each key holds a text.  [get] is the lookup (the
    worker's [null] is [None]), [put] is the insertion.  Both always
    succeed: a failure of the store itself is outside the model. *)
Record Env := { WEBSITES_KV : gmap string string }.

Definition KV_get (env : Env) (key : string) : option string :=
  WEBSITES_KV env !! key.

Definition KV_put (env : Env) (key val : string) : Env :=
  {| WEBSITES_KV := <[key:=val]> (WEBSITES_KV env) |}.

(** Header names are compared without regard to case. *)
Definition lower_char (c : ascii) : ascii :=
  let n := nat_of_ascii c in
  if (65 <=? n)%nat && (n <=? 90)%nat then ascii_of_nat (n + 32) else c.

Fixpoint lower (s : string) : string :=
  match s with
  | EmptyString => EmptyString
  | String c s' => String (lower_char c) (lower s')
  end.

Definition has_header (name : string) (hs : list (string * string)) : bool :=
  existsb (λ h, lower h.1 =? lower name) hs.

(** [new Response(body, { status, headers })] with a string for body: the
    headers are those of the initialiser, in its order, and the constructor
    appends the content type of a string body when the initialiser names
    none.  The initialiser is one whose names and values are well-formed,
    as all those the worker passes are. *)
Definition new_Response (body : string) (status : nat)
    (init : list (string * string)) : Response :=
  {| body := body; status := status;
     headers := if has_header "Content-Type" init then init
                else init ++ [("Content-Type", "text/plain;charset=UTF-8")] |}.

(** [o[k] = v] on the own properties of an object in insertion order, and
    the object literal [{ ...o, ...more }]: a key of [more] that [o] has
    takes its place, the other ones follow. *)
Fixpoint set_property (o : list (string * string)) (k v : string)
    : list (string * string) :=
  match o with
  | [] => [(k, v)]
  | (k', v') :: o' =>
      if String.eqb k' k then (k, v) :: o' else (k', v') :: set_property o' k v
  end.

Definition spread (o more : list (string * string)) : list (string * string) :=
  fold_left (λ acc kv, set_property acc kv.1 kv.2) more o.

Definition corsHeaders : list (string * string) :=
  [("Access-Control-Allow-Origin", "*");
   ("Access-Control-Allow-Methods", "POST, GET, OPTIONS");
   ("Access-Control-Allow-Headers", "Content-Type")].

(** ** The static file server *)

Definition getContentType (filePath : string) : string :=
  if endsWith filePath ".html" then "text/html"
  else if endsWith filePath ".css" then "text/css"
  else if endsWith filePath ".js" then "application/javascript"
  else if endsWith filePath ".png" then "image/png"
  else if endsWith filePath ".jpg" || endsWith filePath ".jpeg" then "image/jpeg"
  else if endsWith filePath ".svg" then "image/svg+xml"
  else "application/octet-stream".

(** [new Response('File not found', { status: 404, headers:
    { 'Content-Type': 'text/plain' } })] *)
Definition not_found : Response :=
  {| body := "File not found"; status := 404;
     headers := [("Content-Type", "text/plain")] |}.

(** [if (fileContent)] holds for a value that is neither [null] nor the
    empty string.  The initialiser of each response names the content type,
    so the constructor appends none. *)
Definition serveStaticFile (path : string) (env : Env) : Response :=
  let filePath := if startsWith path "/" then slice1 path else path in
  match KV_get env filePath with
  | Some fileContent =>
      if truthy fileContent then
        {| body := fileContent; status := 200;
           headers := [("Content-Type", getContentType filePath)] |}
      else not_found
  | None => not_found
  end.

(** ** The JavaScript runtime *)

(** The built-ins the handlers call.  [JSON_parse] returns [None] where
    [JSON.parse] throws a SyntaxError.  The last three operations are the
    comparison [index >= 0 && index < websitesArray.length] and the
    assignment [websitesArray[index] = websiteData] on the operands whose
    coercion goes through ToPrimitive and StringToNumber (an index that is a
    string, an array or an object; a stored value that is a string or an
    object): the worker does not fix their outcome, the runtime does.
    [None] is a thrown TypeError. *)
Class Host : Type := {
  JSON_parse : string → option value;
  JSON_stringify : value → string;
  host_in_bounds : value → value → option bool;
  host_array_index : value → option nat;
  host_assign : value → value → value → option value
}.

(** What the proofs use of [JSON.parse] and [JSON.stringify]: parsing a
    serialised value gives back what was serialised of it, which is the
    value itself only when it is [json_stable]; a parsed value holds no
    [undefined]; and the empty text is no JSON text. *)
Class HostLaws (H : Host) : Prop := {
  parse_stringify :
    ∀ v, is_undefined v = false → JSON_parse (JSON_stringify v) = Some (to_json v);
  parse_is_json : ∀ t v, JSON_parse t = Some v → is_json v = true;
  parse_empty : JSON_parse "" = None
}.

(** ** The handlers *)

Section Worker.
Context {H : Host}.

(** [new Response(JSON.stringify(v), { headers: { 'Content-Type':
    'application/json', ...corsHeaders } })] *)
Definition json_response (v : value) (corsHeaders : list (string * string)) : Response :=
  new_Response (JSON_stringify v) 200
    (spread [("Content-Type", "application/json")] corsHeaders).

(** [new Response(msg, { status: st, headers: corsHeaders })] *)
Definition text_response (msg : string) (st : nat)
    (corsHeaders : list (string * string)) : Response :=
  new_Response msg st corsHeaders.

Definition success : value := VObj [("success", VBool true)].

(** [const websites = await env.WEBSITES_KV.get('websites');
     websites ? JSON.parse(websites) : []] *)
Definition parse_websites (env : Env) : option value :=
  match KV_get env "websites" with
  | Some websites => if truthy websites then JSON_parse websites else Some (VArr [])
  | None => Some (VArr [])
  end.

Definition handleGetRequest (env : Env) (corsHeaders : list (string * string))
    : Response * Env :=
  match parse_websites env with
  | Some websites => (json_response (VObj [("websites", websites)]) corsHeaders, env)
  | None => (text_response "Error getting websites" 500 corsHeaders, env)
  end.

(** [websitesArray.push(x)]: a TypeError unless the parsed value is an
    array. *)
Definition push (websitesArray x : value) : option value :=
  match websitesArray with
  | VArr l => Some (VArr (l ++ [x]))
  | _ => None
  end.

Definition handleAddRequest (websiteData : value) (env : Env)
    (corsHeaders : list (string * string)) : Response * Env :=
  match websitesArray ← parse_websites env; push websitesArray websiteData with
  | Some websitesArray =>
      (json_response success corsHeaders,
       KV_put env "websites" (JSON_stringify websitesArray))
  | None => (text_response "Error adding website" 500 corsHeaders, env)
  end.

(** [index >= 0 && index < websitesArray.length].  Both comparisons are
    numeric; [&&] does not read [length] when the first one is false.
    Reading [length] of [undefined] or [null] throws; a number or a boolean
    has no [length], and the comparison with [undefined] fails. *)
Definition in_bounds (index websitesArray : value) : option bool :=
  match index, websitesArray with
  | (VStr _ | VArr _ | VObj _), _ => host_in_bounds index websitesArray
  | _, (VStr _ | VObj _) => host_in_bounds index websitesArray
  | _, _ =>
      if at_least_zero index then
        match websitesArray with
        | VArr l => Some (less_than index (List.length l))
        | VUndefined | VNull => None
        | _ => Some false
        end
      else Some false
  end.

(** The array index that the property key of [index] names, if any: a
    number that is a non-negative integer does (the negative zero names
    index 0); [undefined], [null], the booleans and the other numbers name
    properties that are no index. *)
Definition array_index (index : value) : option nat :=
  match index with
  | VNum n => if (0 <=? n)%Z then Some (Z.to_nat n) else None
  | VNegZero => Some 0%nat
  | VStr _ | VArr _ | VObj _ => host_array_index index
  | _ => None
  end.

(** [websitesArray[index] = websiteData].  On an array the element is set,
    or a named property that [JSON.stringify] does not serialise.  The
    module is strict code: assigning to a property of a primitive throws. *)
Definition assign (websitesArray index websiteData : value) : option value :=
  match websitesArray with
  | VArr l =>
      Some (VArr (match array_index index with
                  | Some k => array_set l k websiteData
                  | None => l
                  end))
  | VObj _ => host_assign websitesArray index websiteData
  | _ => None
  end.

(** The [try] block yields [None] when it throws, [Some None] when the
    index is refused, and the array to write back otherwise. *)
Definition handleUpdateRequest (websiteData index : value) (env : Env)
    (corsHeaders : list (string * string)) : Response * Env :=
  match websitesArray ← parse_websites env;
        ok ← in_bounds index websitesArray;
        if ok : bool then Some <$> assign websitesArray index websiteData
        else Some None with
  | Some (Some websitesArray) =>
      (json_response success corsHeaders,
       KV_put env "websites" (JSON_stringify websitesArray))
  | Some None => (text_response "Invalid index" 400 corsHeaders, env)
  | None => (text_response "Error updating website" 500 corsHeaders, env)
  end.

(** [l.filter(f)], where [f] may throw. *)
Fixpoint filterM (f : value → option bool) (l : list value) : option (list value) :=
  match l with
  | [] => Some []
  | x :: l' =>
      keep ← f x;
      rest ← filterM f l';
      Some (if keep : bool then x :: rest else rest)
  end.

(** [websitesArray.filter(f)]: a TypeError unless the parsed value is an
    array. *)
Definition filter_array (websitesArray : value) (f : value → option bool) : option value :=
  match websitesArray with
  | VArr l => VArr <$> filterM f l
  | _ => None
  end.

(** [website => website.id !== websiteId] *)
Definition other_id (websiteId website : value) : option bool :=
  id ← get_field website "id";
  Some (negb (strict_eq id websiteId)).

Definition handleDeleteRequest (websiteId : value) (env : Env)
    (corsHeaders : list (string * string)) : Response * Env :=
  match websitesArray ← parse_websites env;
        filter_array websitesArray (other_id websiteId) with
  | Some filteredWebsites =>
      (json_response success corsHeaders,
       KV_put env "websites" (JSON_stringify filteredWebsites))
  | None => (text_response "Error deleting website" 500 corsHeaders, env)
  end.

(** The body of the [try] block of [handleApiRequest] up to the [switch]:
    the parsed body and its [action], [None] when either throws. *)
Definition request_action (request : Request) : option (value * value) :=
  data ← JSON_parse (text request);
  action ← get_field data "action";
  Some (data, action).

Definition handleApiRequest (request : Request) (env : Env)
    (corsHeaders : list (string * string)) : Response * Env :=
  if negb (method request =? "POST") then
    (text_response "Method not allowed" 405 corsHeaders, env)
  else
    match request_action request with
    | None => (text_response "Error processing request" 500 corsHeaders, env)
    | Some (data, action) =>
        let field k := default VUndefined (get_field data k) in
        if strict_eq action (VStr "get") then
          handleGetRequest env corsHeaders
        else if strict_eq action (VStr "add") then
          handleAddRequest (field "data") env corsHeaders
        else if strict_eq action (VStr "update") then
          handleUpdateRequest (field "data") (field "index") env corsHeaders
        else if strict_eq action (VStr "delete") then
          handleDeleteRequest (field "id") env corsHeaders
        else (text_response "Invalid action" 400 corsHeaders, env)
    end.

Definition fetch (request : Request) (env : Env) : Response * Env :=
  let path := pathname request in
  if method request =? "OPTIONS" then
    (text_response "OK" 200 corsHeaders, env)
  else if (method request =? "POST")
          && (endsWith path "/worker.js" || startsWith path "/api/") then
    handleApiRequest request env corsHeaders
  else if endsWith path ".html" || endsWith path ".css" || endsWith path ".js"
          || endsWith path ".png" || endsWith path ".jpg" || endsWith path ".svg" then
    (serveStaticFile path env, env)
  else (serveStaticFile "/index.html" env, env).

(** ** Notions the properties are stated with *)

(** The collection the store holds: the array whose JSON text is under the
    key ["websites"], the empty array when the key is absent.  Its elements
    are as [JSON.stringify] writes them, since that is how every text the
    worker puts under the key is made: they hold no infinity and no
    negative zero. *)
Definition stored_collection (env : Env) (l : list value) : Prop :=
  (KV_get env "websites" = None ∧ l = [])
  ∨ (∃ t, KV_get env "websites" = Some t ∧ JSON_parse t = Some (VArr l)
          ∧ forallb json_stable l = true).

(** The text [t] is the JSON text of an array. *)
Definition array_text (t : string) : Prop :=
  ∃ l, JSON_parse t = Some (VArr l).

(** The key ["websites"] is absent or holds the JSON text of an array. *)
Definition collection_valid (env : Env) : Prop :=
  match KV_get env "websites" with
  | None => True
  | Some t => array_text t
  end.

(** From [env] to [env'] nothing was written, or the JSON text of an array
    was written under the key ["websites"]. *)
Definition wrote_array (env env' : Env) : Prop :=
  env' = env ∨ ∃ t, array_text t ∧ env' = KV_put env "websites" t.

(** What the [get] action answers when the collection is [l]. *)
Definition websites_response (l : list value)
    (corsHeaders : list (string * string)) : Response :=
  json_response (VObj [("websites", VArr l)]) corsHeaders.

End Worker.

(** The [id] of a stored element, [undefined] when it has none. *)
Definition id_of (website : value) : value :=
  default VUndefined (get_field website "id").

(** The element is an object with an own property [id]. *)
Definition has_id_field (website : value) : bool :=
  match website with
  | VObj fs => bool_decide (is_Some (lookup_field "id" fs))
  | _ => false
  end.

(** Identifiers that are compared by value. *)
Definition is_primitive (v : value) : bool :=
  match v with
  | VArr _ | VObj _ => false
  | _ => true
  end.

Definition is_null (v : value) : bool :=
  match v with VNull => true | _ => false end.

Definition is_number (v : value) : bool :=
  match v with
  | VNum _ | VFrac _ _ _ | VNegZero | VInf _ => true
  | _ => false
  end.

(** ** A reference host *)

(** A runtime to run the handlers on: a JSON printer and a parser over
    texts as lists of characters.  The parser reads the JSON grammar with
    number literals in decimal notation (an integer part and, after a
    decimal point, digits the last of which is not 0; no exponent) and, in
    strings, the two-character escapes and [\uXXXX] below 128.  Of
    [undefined] itself, for which [JSON.stringify] returns no text, it
    prints [null].  The operations on compound operands are stand-ins: the
    laws say nothing about them. *)
Module Reference.

Local Open Scope char_scope.
Local Open Scope list_scope.

Definition quote : ascii := "034".
Definition backslash : ascii := "\".

Definition is_ws (c : ascii) : bool :=
  (c =? " ") || (c =? "009") || (c =? "010") || (c =? "013").

Fixpoint skip_ws (s : list ascii) : list ascii :=
  match s with
  | c :: r => if is_ws c then skip_ws r else s
  | [] => []
  end.

Definition is_digit (c : ascii) : bool :=
  (48 <=? nat_of_ascii c)%nat && (nat_of_ascii c <=? 57)%nat.

Fixpoint span_digits (s : list ascii) : list ascii * list ascii :=
  match s with
  | c :: r =>
      if is_digit c then let '(ds, r') := span_digits r in (c :: ds, r')
      else ([], s)
  | [] => ([], [])
  end.

(** [expect lit s]: what follows the literal [lit] at the head of [s]. *)
Fixpoint expect (lit s : list ascii) : option (list ascii) :=
  match lit with
  | [] => Some s
  | c :: lit' =>
      match s with
      | d :: s' => if d =? c then expect lit' s' else None
      | [] => None
      end
  end.

(** *** Numbers *)

Definition print_Z (z : Z) : list ascii :=
  list_ascii_of_string (NilZero.string_of_int (Z.to_int z)).

(** The digits of a decimal number. *)
Definition digits (u : Decimal.uint) : list ascii :=
  list_ascii_of_string (NilEmpty.string_of_uint u).

(** The digits after the decimal point of a number that is no integer. *)
Definition print_fraction (p : positive) : list ascii :=
  rev (digits (Pos.to_uint p)).

Definition exponent_follows (s : list ascii) : bool :=
  match s with
  | c :: _ => (c =? "e") || (c =? "E")
  | [] => false
  end.

Definition leading_zero (ds : list ascii) : bool :=
  match ds with
  | c :: _ :: _ => c =? "0"
  | _ => false
  end.

(** The digits after a decimal point, the last of which is not 0. *)
Definition parse_fraction (s : list ascii) : option (positive * list ascii) :=
  let '(fs, rest) := span_digits s in
  match rev fs with
  | [] => None
  | c :: _ =>
      if (c =? "0") || exponent_follows rest then None
      else
        d ← NilEmpty.uint_of_string (string_of_list_ascii (rev fs));
        match N.of_uint d with
        | N.pos p => Some (p, rest)
        | N0 => None
        end
  end.

(** The integer of the given sign and magnitude. *)
Definition integer (negative : bool) (n : N) : value :=
  if negative then
    match n with
    | N0 => VNegZero
    | N.pos p => VNum (Z.neg p)
    end
  else VNum (Z.of_N n).

(** A number literal after its sign. *)
Definition parse_unsigned (negative : bool) (s : list ascii)
    : option (value * list ascii) :=
  let '(ds, rest) := span_digits s in
  if leading_zero ds || exponent_follows rest then None
  else
    match ds with
    | [] => None
    | _ =>
        d ← NilEmpty.uint_of_string (string_of_list_ascii ds);
        match rest with
        | c :: rest' =>
            if c =? "." then
              '(p, rest'') ← parse_fraction rest';
              Some (VFrac negative (N.of_uint d) p, rest'')
            else Some (integer negative (N.of_uint d), rest)
        | [] => Some (integer negative (N.of_uint d), rest)
        end
    end.

Definition parse_number (s : list ascii) : option (value * list ascii) :=
  match s with
  | c :: r => if c =? "-" then parse_unsigned true r else parse_unsigned false s
  | [] => None
  end.

(** *** Strings *)

Definition hex_digit (n : nat) : ascii :=
  ascii_of_nat (if (n <? 10)%nat then 48 + n else 87 + n).

Definition hex_value (c : ascii) : option nat :=
  let n := nat_of_ascii c in
  if is_digit c then Some (n - 48)
  else if (97 <=? n)%nat && (n <=? 102)%nat then Some (n - 87)
  else if (65 <=? n)%nat && (n <=? 70)%nat then Some (n - 55)
  else None.

Definition escape_char (c : ascii) : list ascii :=
  if c =? quote then [backslash; quote]
  else if c =? backslash then [backslash; backslash]
  else if c =? "008" then [backslash; "b"]
  else if c =? "009" then [backslash; "t"]
  else if c =? "010" then [backslash; "n"]
  else if c =? "012" then [backslash; "f"]
  else if c =? "013" then [backslash; "r"]
  else if (nat_of_ascii c <? 32)%nat then
    [backslash; "u"; "0"; "0";
     hex_digit (nat_of_ascii c / 16); hex_digit (nat_of_ascii c mod 16)]
  else [c].

Fixpoint escape_string (s : string) : list ascii :=
  match s with
  | EmptyString => []
  | String c s' => escape_char c ++ escape_string s'
  end.

Definition print_string (s : string) : list ascii :=
  quote :: escape_string s ++ [quote].

(** The character a two-character escape stands for. *)
Definition unescape (e : ascii) : option ascii :=
  if e =? quote then Some quote
  else if e =? backslash then Some backslash
  else if e =? "/" then Some "/"
  else if e =? "b" then Some "008"
  else if e =? "t" then Some "009"
  else if e =? "n" then Some "010"
  else if e =? "f" then Some "012"
  else if e =? "r" then Some "013"
  else None.

(** The character [\uXXXX] stands for, below 128. *)
Definition unescape_hex (h1 h2 h3 h4 : ascii) : option ascii :=
  a ← hex_value h1; b ← hex_value h2; c ← hex_value h3; d ← hex_value h4;
  let n := (((a * 16 + b) * 16 + c) * 16 + d)%nat in
  if (n <? 128)%nat then Some (ascii_of_nat n) else None.

(** The characters of a string literal after its opening quote, up to the
    closing one. *)
Fixpoint parse_string_body (s : list ascii) : option (string * list ascii) :=
  match s with
  | [] => None
  | c :: r =>
      if c =? quote then Some (EmptyString, r)
      else if c =? backslash then
        match r with
        | e :: r1 =>
            if e =? "u" then
              match r1 with
              | h1 :: h2 :: h3 :: h4 :: r2 =>
                  x ← unescape_hex h1 h2 h3 h4;
                  '(str, rest) ← parse_string_body r2;
                  Some (String x str, rest)
              | _ => None
              end
            else
              x ← unescape e;
              '(str, rest) ← parse_string_body r1;
              Some (String x str, rest)
        | [] => None
        end
      else if (nat_of_ascii c <? 32)%nat then None
      else
        '(str, rest) ← parse_string_body r;
        Some (String c str, rest)
  end.

(** *** Values *)

Fixpoint print (v : value) : list ascii :=
  match v with
  | VUndefined | VNull => ["n"; "u"; "l"; "l"]
  | VBool true => ["t"; "r"; "u"; "e"]
  | VBool false => ["f"; "a"; "l"; "s"; "e"]
  | VNum n => print_Z n
  | VFrac negative whole p =>
      (if negative then ["-"] else []) ++ print_Z (Z.of_N whole)
      ++ "." :: print_fraction p
  | VNegZero => ["0"]
  | VInf _ => ["n"; "u"; "l"; "l"]
  | VStr s => print_string s
  | VArr l =>
      "[" :: (fix elems (l : list value) : list ascii :=
                match l with
                | [] => []
                | x :: l' =>
                    print x ++ match l' with [] => [] | _ => "," :: elems l' end
                end) l ++ ["]"]
  | VObj fs =>
      "{" :: (fix members (fs : list (string * value)) : list ascii :=
                match fs with
                | [] => []
                | (k, x) :: fs' =>
                    print_string k ++ ":" :: print x
                    ++ match fs' with [] => [] | _ => "," :: members fs' end
                end) fs ++ ["}"]
  end.

Fixpoint parse_value (fuel : nat) (s : list ascii) : option (value * list ascii) :=
  match fuel with
  | O => None
  | S fuel =>
      match skip_ws s with
      | [] => None
      | c :: r =>
          if c =? "n" then r' ← expect ["u"; "l"; "l"] r; Some (VNull, r')
          else if c =? "t" then r' ← expect ["r"; "u"; "e"] r; Some (VBool true, r')
          else if c =? "f" then r' ← expect ["a"; "l"; "s"; "e"] r; Some (VBool false, r')
          else if c =? quote then
            '(str, r') ← parse_string_body r; Some (VStr str, r')
          else if c =? "[" then
            match skip_ws r with
            | [] => None
            | c' :: r' =>
                if c' =? "]" then Some (VArr [], r')
                else '(l, r'') ← parse_elements fuel (c' :: r'); Some (VArr l, r'')
            end
          else if c =? "{" then
            match skip_ws r with
            | [] => None
            | c' :: r' =>
                if c' =? "}" then Some (VObj [], r')
                else '(fs, r'') ← parse_members fuel (c' :: r'); Some (VObj fs, r'')
            end
          else parse_number (c :: r)
      end
  end
with parse_elements (fuel : nat) (s : list ascii) : option (list value * list ascii) :=
  match fuel with
  | O => None
  | S fuel =>
      '(v, r) ← parse_value fuel s;
      match skip_ws r with
      | [] => None
      | c :: r' =>
          if c =? "," then '(vs, r'') ← parse_elements fuel r'; Some (v :: vs, r'')
          else if c =? "]" then Some ([v], r')
          else None
      end
  end
with parse_members (fuel : nat) (s : list ascii)
    : option (list (string * value) * list ascii) :=
  match fuel with
  | O => None
  | S fuel =>
      match skip_ws s with
      | [] => None
      | c :: r =>
          if c =? quote then
            '(k, r1) ← parse_string_body r;
            match skip_ws r1 with
            | [] => None
            | c1 :: r2 =>
                if c1 =? ":" then
                  '(v, r3) ← parse_value fuel r2;
                  match skip_ws r3 with
                  | [] => None
                  | c3 :: r4 =>
                      if c3 =? "," then
                        '(fs, r5) ← parse_members fuel r4; Some ((k, v) :: fs, r5)
                      else if c3 =? "}" then Some ([(k, v)], r4)
                      else None
                  end
                else None
            end
          else None
      end
  end.

(** The printed elements of an array, and the printed members of an
    object. *)
Fixpoint print_elems (l : list value) : list ascii :=
  match l with
  | [] => []
  | x :: l' => print x ++ match l' with [] => [] | _ => "," :: print_elems l' end
  end.

Fixpoint print_members (fs : list (string * value)) : list ascii :=
  match fs with
  | [] => []
  | (k, x) :: fs' =>
      print_string k ++ ":" :: print x
      ++ match fs' with [] => [] | _ => "," :: print_members fs' end
  end.

Definition stringify (v : value) : string :=
  string_of_list_ascii (print (to_json v)).

Definition parse (t : string) : option value :=
  let s := list_ascii_of_string t in
  '(v, r) ← parse_value (S (List.length s)) s;
  match skip_ws r with
  | [] => Some v
  | _ => None
  end.

Definition host : Host := {|
  JSON_parse := parse;
  JSON_stringify := stringify;
  host_in_bounds := λ _ _, Some false;
  host_array_index := λ _, None;
  host_assign := λ _ _ _, None
|}.

(** *** Notions for the correctness of the parser *)

(** [rest] does not start with a digit. *)
Definition no_digit (rest : list ascii) : Prop :=
  match rest with
  | c :: _ => is_digit c = false
  | [] => True
  end.

(** The numbers that are printed as number literals. *)
Definition is_literal (v : value) : bool :=
  match v with
  | VNum _ | VFrac _ _ _ => true
  | _ => false
  end.

(** [rest] does not continue a number literal. *)
Definition ends_number (rest : list ascii) : Prop :=
  match rest with
  | c :: _ => is_digit c = false ∧ (c =? ".") = false
              ∧ exponent_follows rest = false
  | [] => True
  end.

(** What follows a value inside a text. *)
Definition delim (rest : list ascii) : Prop :=
  match rest with
  | [] => True
  | c :: _ => c = "," ∨ c = "]" ∨ c = "}"
  end.

(** A printed value starts with a character that is no white space and
    closes neither an array nor an object. *)
Definition opens_value (c : ascii) : Prop :=
  is_ws c = false ∧ (c =? "]") = false ∧ (c =? "}") = false.

(** Parsing the printed form of [v] gives [v] back and leaves what
    follows, whenever the fuel covers the printed form. *)
Definition roundtrips (v : value) : Prop :=
  json_stable v = true → ∀ fuel rest,
    (List.length (print v) ≤ fuel)%nat → delim rest →
    parse_value fuel (print v ++ rest) = Some (v, rest).

End Reference.

(** ** Sample data *)

Definition site_a : value := VObj [("id", VStr "a"); ("title", VStr "A")].
Definition site_a2 : value := VObj [("id", VStr "a"); ("title", VStr "A2")].
Definition site_b : value := VObj [("id", VStr "b")].
Definition site_7 : value := VObj [("id", VNum 7)].
Definition untitled : value := VObj [("title", VStr "no id")].

(** The data of the request body [{"id":"c","visits":1e999}], and what is
    read back of it once it has been stored. *)
Definition site_inf : value := VObj [("id", VStr "c"); ("visits", VInf false)].
Definition site_inf_read : value := VObj [("id", VStr "c"); ("visits", VNull)].

Definition env_empty : Env := {| WEBSITES_KV := ∅ |}.

(** A store whose collection is [[site_a; site_b]]. *)
Definition env_ab : Env :=
  KV_put env_empty "websites" (Reference.stringify (VArr [site_a; site_b])).

(** A store whose collection is [[site_7; untitled; site_a]]. *)
Definition env_mixed : Env :=
  KV_put env_empty "websites" (Reference.stringify (VArr [site_7; untitled; site_a])).

(** A store with two assets, one of them empty. *)
Definition env_assets : Env :=
  KV_put (KV_put env_empty "index.html" "<h1>sites</h1>") "empty.css" "".

(** The POST request to an API path whose body is the JSON text of [v]. *)
Definition api_request (v : value) : Request :=
  {| method := "POST"; pathname := "/api/websites";
     text := Reference.stringify v |}.

(** The request for the action [get]. *)
Definition get_request : Request := api_request (VObj [("action", VStr "get")]).

(** Requests for the further properties. *)
Definition jpeg_request : Request :=
  {| method := "GET"; pathname := "/photo.jpeg"; text := "" |}.

Definition add_request : Request :=
  api_request (VObj [("action", VStr "add"); ("data", site_b)]).

Definition broken_request : Request :=
  {| method := "POST"; pathname := "/api/websites"; text := "{oops" |}.

Definition purge_request : Request := api_request (VObj [("action", VStr "purge")]).

(** Stores for the edge cases: two collections with a [null] element, a
    text that is no JSON, the JSON text of a number, and an empty text. *)
Definition env_with_null : Env :=
  KV_put env_empty "websites" (Reference.stringify (VArr [site_a; VNull])).

Definition env_untitled_null : Env :=
  KV_put env_empty "websites" (Reference.stringify (VArr [untitled; VNull])).

Definition env_corrupt : Env := KV_put env_empty "websites" "{oops".

Definition env_number : Env :=
  KV_put env_empty "websites" (Reference.stringify (VNum 5)).

Definition env_blank : Env := KV_put env_assets "websites" "".

(** ** Notions for the further properties *)

(** The two kinds of response of the API: a JSON response, and a text
    response with a status other than 200. *)
Definition api_response `{Host} (cors : list (string * string))
    (response : Response) : Prop :=
  (∃ v, response = json_response v cors)
  ∨ (∃ msg st, response = text_response msg st cors ∧ st ≠ 200).

(** From [env] to [env'] nothing was written, or a serialised array was
    written under the key ["websites"]. *)
Definition wrote_collection `{Host} (env env' : Env) : Prop :=
  env' = env ∨ ∃ l, env' = KV_put env "websites" (JSON_stringify (VArr l)).

(** The statuses an answer can have. *)
Definition answer_status (n : nat) : Prop :=
  n = 200 ∨ n = 400 ∨ n = 404 ∨ n = 500.

(** From [env] to [env'] nothing was written, or a text was written under
    the key ["websites"]. *)
Definition wrote_websites (env env' : Env) : Prop :=
  env' = env ∨ ∃ t, env' = KV_put env "websites" t.

Definition is_array (v : value) : bool :=
  match v with VArr _ => true | _ => false end.

(** * Properties *)

(** ** The static file server *)

Section StaticFacts.
Implicit Types (env : Env) (path key : string).

Lemma startsWith_cons s c p :
  startsWith s (String c p) = true → ∃ s', s = String c s' ∧ startsWith s' p = true.
Proof.
  destruct s as [|d s']; simpl; [done|]. intros Hs.
  apply andb_true_iff in Hs as [Hd Hs]. apply Ascii.eqb_eq in Hd as ->. eauto.
Qed.

(** Decides the chain of suffix tests of [getContentType] once the last
    characters of the path are known. *)
Ltac by_suffix :=
  let Hs := fresh "Hs" in
  intros Hs; unfold getContentType, endsWith in *; simpl String.rev in *;
  repeat (apply startsWith_cons in Hs as (? & -> & Hs)); reflexivity.

Lemma content_type_html f : endsWith f ".html" = true → getContentType f = "text/html".
Proof. by_suffix. Qed.

Lemma content_type_css f : endsWith f ".css" = true → getContentType f = "text/css".
Proof. by_suffix. Qed.

Lemma content_type_js f :
  endsWith f ".js" = true → getContentType f = "application/javascript".
Proof. by_suffix. Qed.

Lemma content_type_png f : endsWith f ".png" = true → getContentType f = "image/png".
Proof. by_suffix. Qed.

Lemma content_type_jpg f : endsWith f ".jpg" = true → getContentType f = "image/jpeg".
Proof. by_suffix. Qed.

Lemma content_type_jpeg f : endsWith f ".jpeg" = true → getContentType f = "image/jpeg".
Proof. by_suffix. Qed.

Lemma content_type_svg f : endsWith f ".svg" = true → getContentType f = "image/svg+xml".
Proof. by_suffix. Qed.

Lemma content_type_other f :
  endsWith f ".html" = false → endsWith f ".css" = false →
  endsWith f ".js" = false → endsWith f ".png" = false →
  endsWith f ".jpg" = false → endsWith f ".jpeg" = false →
  endsWith f ".svg" = false →
  getContentType f = "application/octet-stream".
Proof. unfold getContentType. by intros -> -> -> -> -> -> ->. Qed.

(** The key [serveStaticFile] looks up for [path]: the path without its
    first character when that is a slash, the path itself otherwise. *)
Lemma asset_key path key :
  path = "/" +:+ key ∨ (startsWith path "/" = false ∧ key = path) →
  (if startsWith path "/" then slice1 path else path) = key.
Proof. intros [->|[-> ->]]; done. Qed.

Lemma serveStaticFile_status path env :
  status (serveStaticFile path env) = 200 ∨ status (serveStaticFile path env) = 404.
Proof.
  unfold serveStaticFile. destruct (KV_get env _) as [c|]; [|by right].
  destruct (truthy c); auto.
Qed.

(** C8 as it is stated fails where the value found is the empty string:
    the key [a.html] holds a value, and the request for [/a.html] is
    answered 404 "File not found" instead of that value with the content
    type [text/html]. *)
Lemma serveStaticFile_found_counterexample :
  let env := {| WEBSITES_KV := {["a.html" := ""]} |} in
  KV_get env "a.html" = Some ""
  ∧ serveStaticFile "/a.html" env = not_found
  ∧ serveStaticFile "/a.html" env
    ≠ {| body := ""; status := 200; headers := [("Content-Type", "text/html")] |}.
Proof. vm_compute. split_and!; [reflexivity|reflexivity|discriminate]. Qed.

(** C8 (amended): for every request path, the static file server strips a
    single leading slash and looks the resulting key up in the store.  If a
    value that is not empty is found, the response is that value, with
    status 200 and the content type of the key's suffix: [.html] gives
    [text/html], [.css] gives [text/css], [.js] gives
    [application/javascript], [.png] gives [image/png], [.jpg] and [.jpeg]
    give [image/jpeg], [.svg] gives [image/svg+xml], and any other key
    [application/octet-stream].  If no value is found, the response is 404
    with a plain-text body. *)
Theorem serveStaticFile_spec path key env :
  path = "/" +:+ key ∨ (startsWith path "/" = false ∧ key = path) →
  (∀ content, KV_get env key = Some content → content ≠ "" →
     serveStaticFile path env
     = {| body := content; status := 200;
          headers := [("Content-Type", getContentType key)] |})
  ∧ (KV_get env key = None → serveStaticFile path env = not_found)
  ∧ (endsWith key ".html" = true → getContentType key = "text/html")
  ∧ (endsWith key ".css" = true → getContentType key = "text/css")
  ∧ (endsWith key ".js" = true → getContentType key = "application/javascript")
  ∧ (endsWith key ".png" = true → getContentType key = "image/png")
  ∧ (endsWith key ".jpg" = true ∨ endsWith key ".jpeg" = true →
       getContentType key = "image/jpeg")
  ∧ (endsWith key ".svg" = true → getContentType key = "image/svg+xml")
  ∧ (endsWith key ".html" = false → endsWith key ".css" = false →
     endsWith key ".js" = false → endsWith key ".png" = false →
     endsWith key ".jpg" = false → endsWith key ".jpeg" = false →
     endsWith key ".svg" = false →
     getContentType key = "application/octet-stream").
Proof.
  intros Hkey. apply asset_key in Hkey.
  split_and!; auto using content_type_html, content_type_css, content_type_js,
    content_type_png, content_type_svg, content_type_other.
  - intros content Hget Hne. unfold serveStaticFile. rewrite Hkey, Hget.
    by destruct content.
  - intros Hget. unfold serveStaticFile. by rewrite Hkey, Hget.
  - intros [?|?]; auto using content_type_jpg, content_type_jpeg.
Qed.

(** The asset [index.html] of [env_assets] is served as [text/html]. *)
Lemma serveStaticFile_spec_witness :
  ("/index.html" = "/" +:+ "index.html"
   ∨ (startsWith "/index.html" "/" = false ∧ "index.html" = "/index.html"))
  ∧ KV_get env_assets "index.html" = Some "<h1>sites</h1>"
  ∧ serveStaticFile "/index.html" env_assets
    = {| body := "<h1>sites</h1>"; status := 200;
         headers := [("Content-Type", "text/html")] |}.
Proof.
  split; [left; reflexivity|]. split; [reflexivity|].
  destruct (serveStaticFile_spec "/index.html" "index.html" env_assets
              (or_introl eq_refl)) as (Hfound & _ & Hhtml & _).
  rewrite (Hfound "<h1>sites</h1>" eq_refl) by discriminate.
  rewrite Hhtml by reflexivity. reflexivity.
Defined.

(** C9: for every asset key whose stored value is the empty string, the
    static file server responds 404 "File not found", although the key
    exists in the store. *)
Theorem serveStaticFile_empty_value path key env :
  path = "/" +:+ key ∨ (startsWith path "/" = false ∧ key = path) →
  KV_get env key = Some "" →
  serveStaticFile path env = not_found.
Proof.
  intros Hkey Hget. apply asset_key in Hkey. unfold serveStaticFile.
  by rewrite Hkey, Hget.
Qed.

(** The empty asset [empty.css] of [env_assets] is answered 404. *)
Lemma serveStaticFile_empty_value_witness :
  ("/empty.css" = "/" +:+ "empty.css"
   ∨ (startsWith "/empty.css" "/" = false ∧ "empty.css" = "/empty.css"))
  ∧ KV_get env_assets "empty.css" = Some ""
  ∧ serveStaticFile "/empty.css" env_assets = not_found.
Proof.
  split; [left; reflexivity|]. split; [reflexivity|].
  apply (serveStaticFile_empty_value "/empty.css" "empty.css" env_assets);
    [left; reflexivity|reflexivity].
Defined.

End StaticFacts.

(** ** The router *)

Section RouterFacts.
Context {H : Host}.
Implicit Types (env : Env) (request : Request).

(** The guard of [handleApiRequest] answers 405 to every method but
    POST. *)
Lemma handleApiRequest_not_post request env cors :
  method request ≠ "POST" →
  handleApiRequest request env cors
  = (text_response "Method not allowed" 405 cors, env).
Proof.
  intros Hm. unfold handleApiRequest.
  destruct (String.eqb_spec (method request) "POST"); done.
Qed.

(** [fetch] passes only POST requests to [handleApiRequest]: every other
    request, at an API path or not, is answered by the static file
    server. *)
Lemma fetch_not_post request env :
  method request ≠ "POST" → method request ≠ "OPTIONS" →
  ∃ path, fetch request env = (serveStaticFile path env, env).
Proof.
  intros Hp Ho. unfold fetch.
  destruct (String.eqb_spec (method request) "OPTIONS"); [done|].
  destruct (String.eqb_spec (method request) "POST"); [done|]. simpl.
  destruct (_ || _); eauto.
Qed.

Lemma handler_status_get env cors : status (handleGetRequest env cors).1 ≠ 405.
Proof. unfold handleGetRequest. by destruct (parse_websites env). Qed.

Lemma handler_status_add d env cors : status (handleAddRequest d env cors).1 ≠ 405.
Proof. unfold handleAddRequest. by destruct (_ ≫= _). Qed.

Lemma handler_status_update d i env cors :
  status (handleUpdateRequest d i env cors).1 ≠ 405.
Proof. unfold handleUpdateRequest. by destruct (_ ≫= _) as [[]|]. Qed.

Lemma handler_status_delete i env cors :
  status (handleDeleteRequest i env cors).1 ≠ 405.
Proof. unfold handleDeleteRequest. by destruct (_ ≫= _). Qed.

Ltac static_status :=
  match goal with
  | |- context [serveStaticFile ?p ?e] =>
      by destruct (serveStaticFile_status p e) as [-> | ->]
  end.

(** No request at all is answered with status 405: the guard of
    [handleApiRequest] is never reached with another method than POST. *)
Lemma fetch_never_405 request env : status (fetch request env).1 ≠ 405.
Proof.
  unfold fetch.
  destruct (String.eqb_spec (method request) "OPTIONS"); [done|].
  destruct (String.eqb_spec (method request) "POST") as [Hm|]; simpl.
  - destruct (_ || _).
    + unfold handleApiRequest. rewrite Hm. simpl.
      destruct (request_action request) as [[data action]|]; [|done].
      repeat case_match;
        auto using handler_status_get, handler_status_add,
          handler_status_update, handler_status_delete.
    + destruct (_ || _); simpl; static_status.
  - destruct (_ || _); simpl; static_status.
Qed.

(** A POST request at an API path is handled by [handleApiRequest]. *)
Lemma fetch_post_api request env :
  method request = "POST" →
  endsWith (pathname request) "/worker.js" || startsWith (pathname request) "/api/"
  = true →
  fetch request env = handleApiRequest request env corsHeaders.
Proof. intros Hm Hpath. unfold fetch. by rewrite Hm, Hpath. Qed.

(** The action of a request body selects the handler, which receives the
    fields [data], [index] and [id] of the body. *)
Lemma handleApiRequest_dispatch request data action env cors :
  method request = "POST" →
  JSON_parse (text request) = Some data →
  get_field data "action" = Some (VStr action) →
  let field k := default VUndefined (get_field data k) in
  handleApiRequest request env cors
  = if (action =? "get")%string then handleGetRequest env cors
    else if (action =? "add")%string then handleAddRequest (field "data") env cors
    else if (action =? "update")%string then
      handleUpdateRequest (field "data") (field "index") env cors
    else if (action =? "delete")%string then handleDeleteRequest (field "id") env cors
    else (text_response "Invalid action" 400 cors, env).
Proof.
  intros Hm Hdata Haction field. unfold handleApiRequest, request_action.
  rewrite Hm, Hdata. simpl. rewrite Haction. reflexivity.
Qed.

(** C1 on the request [GET /api/websites], whose path begins with the API
    prefix and whose method is neither POST nor OPTIONS: [fetch] answers it
    with the index document of the static file server, so with status 200
    or 404, and not with the status 405 of the guard of
    [handleApiRequest]. *)
Theorem fetch_get_api_path env :
  let request := {| method := "GET"; pathname := "/api/websites"; text := "" |} in
  fetch request env = (serveStaticFile "/index.html" env, env)
  ∧ (status (fetch request env).1 = 200 ∨ status (fetch request env).1 = 404).
Proof.
  intros request. split; [reflexivity|].
  change (fetch request env) with (serveStaticFile "/index.html" env, env).
  apply serveStaticFile_status.
Qed.

End RouterFacts.

(** ** The collection *)

Section WorkerFacts.
Context {H : Host} {HL : HostLaws H}.
Implicit Types (env : Env) (l : list value) (cors : list (string * string)).

(** A value that holds no [undefined], no infinity and no negative zero is
    serialised as it is. *)
Lemma to_json_id v : json_stable v = true → to_json v = v.
Proof.
  induction v as [| |b|n|sg w d| |sg|s|l IH|fs IH] using value_ind';
    intros Hv; try done; simpl in *.
  - f_equal. induction IH as [|x l Hx _ IHl]; [done|]. simpl in *.
    apply andb_true_iff in Hv as [Hjx Hjl].
    rewrite IHl by done. destruct x; try done; by rewrite Hx.
  - f_equal. induction IH as [|[k x] fs Hx _ IHfs]; [done|]. simpl in *.
    apply andb_true_iff in Hv as [Hjx Hjl].
    destruct (is_undefined x) eqn:E; [by destruct x|]. simpl.
    f_equal; [by rewrite Hx|by apply IHfs].
Qed.

(** What is serialised of a value holds no [undefined], no infinity and no
    negative zero. *)
Lemma to_json_stable v : is_undefined v = false → json_stable (to_json v) = true.
Proof.
  induction v as [| |b|n|sg w d| |sg|s|l IH|fs IH] using value_ind';
    intros Hv; try done; clear Hv; simpl.
  - induction IH as [|x l Hx _ IHl]; [done|]. simpl.
    rewrite IHl, andb_true_r. destruct (is_undefined x) eqn:E; [done|]. by apply Hx.
  - induction IH as [|[k x] fs Hx _ IHfs]; [done|]. simpl in *.
    destruct (is_undefined x) eqn:E; [done|]. simpl.
    apply andb_true_iff; split; [by apply Hx|exact IHfs].
Qed.

Lemma json_stable_is_json v : json_stable v = true → is_json v = true.
Proof.
  induction v as [| |b|n|sg w d| |sg|s|l IH|fs IH] using value_ind';
    intros Hv; try done; simpl in *.
  - induction IH as [|x l Hx _ IHl]; [done|]. simpl in *.
    apply andb_true_iff in Hv as [Hjx Hjl]. by rewrite Hx, IHl.
  - induction IH as [|[k x] fs Hx _ IHfs]; [done|]. simpl in *.
    apply andb_true_iff in Hv as [Hjx Hjl]. by rewrite Hx, IHfs.
Qed.

Lemma serialised_element_stable x : json_stable (serialised_element x) = true.
Proof.
  unfold serialised_element. destruct (is_undefined x) eqn:E; [done|].
  by apply to_json_stable.
Qed.

Lemma serialised_element_id x : json_stable x = true → serialised_element x = x.
Proof.
  intros Hx. unfold serialised_element.
  destruct (is_undefined x) eqn:E; [by destruct x|]. by apply to_json_id.
Qed.

Lemma serialised_elements_stable l :
  forallb json_stable (map serialised_element l) = true.
Proof.
  induction l as [|x l IH]; [done|]. simpl.
  by rewrite serialised_element_stable, IH.
Qed.

Lemma serialised_elements_id l :
  forallb json_stable l = true → map serialised_element l = l.
Proof.
  induction l as [|x l IH]; [done|]. simpl. intros Hj.
  apply andb_true_iff in Hj as [Hx Hl].
  by rewrite IH, serialised_element_id.
Qed.

(** A serialised value is no empty text. *)
Lemma stringify_truthy v : is_undefined v = false → truthy (JSON_stringify v) = true.
Proof.
  intros Hv. pose proof (parse_stringify v Hv) as Hp.
  destruct (JSON_stringify v); [|done]. by rewrite parse_empty in Hp.
Qed.

(** The handlers read the stored collection. *)
Lemma stored_parse_websites env l :
  stored_collection env l → parse_websites env = Some (VArr l).
Proof.
  unfold parse_websites. intros [[-> ->]|(t & -> & Ht & _)]; [done|].
  destruct t; [by rewrite parse_empty in Ht|done].
Qed.

Lemma stored_stable env l : stored_collection env l → forallb json_stable l = true.
Proof. by intros [[_ ->]|(t & _ & _ & Hl)]. Qed.

Lemma stored_is_json env l : stored_collection env l → forallb is_json l = true.
Proof.
  intros Hst. apply stored_stable in Hst. apply forallb_forall. intros x Hx.
  rewrite forallb_forall in Hst. by apply json_stable_is_json, Hst.
Qed.

(** The get action on a stored collection. *)
Lemma get_stored env l cors :
  stored_collection env l →
  handleGetRequest env cors = (websites_response l cors, env).
Proof.
  intros Hst. unfold handleGetRequest. by rewrite (stored_parse_websites env l Hst).
Qed.

(** The store after an array has been written holds what is serialised of
    its elements. *)
Lemma stored_after_put env l :
  stored_collection (KV_put env "websites" (JSON_stringify (VArr l)))
    (map serialised_element l).
Proof.
  right. eexists. split_and!.
  - unfold KV_get, KV_put. simpl. apply lookup_insert_eq.
  - by rewrite parse_stringify.
  - apply serialised_elements_stable.
Qed.

(** The get action after the array [l] has been written. *)
Lemma get_after_put env l cors :
  forallb json_stable l = true →
  let env' := KV_put env "websites" (JSON_stringify (VArr l)) in
  handleGetRequest env' cors = (websites_response l cors, env').
Proof.
  intros Hl env'. apply get_stored. subst env'.
  rewrite <- (serialised_elements_id l Hl) at 2. apply stored_after_put.
Qed.

Lemma map_insert_element (f : value → value) l (k : nat) x :
  map f (<[k:=x]> l) = <[k:=f x]> (map f l).
Proof.
  revert k. induction l as [|y l IH]; [done|]. intros [|k]; [done|].
  simpl. by rewrite IH.
Qed.

(** *** The update action *)

(** An update within the bounds writes the array with the element
    replaced. *)
Lemma update_in_range env l websiteData i cors :
  stored_collection env l →
  (0 ≤ i < Z.of_nat (List.length l))%Z →
  handleUpdateRequest websiteData (VNum i) env cors
  = (json_response success cors,
     KV_put env "websites" (JSON_stringify (VArr (<[Z.to_nat i:=websiteData]> l)))).
Proof.
  intros Hst Hi. unfold handleUpdateRequest.
  rewrite (stored_parse_websites env l Hst). simpl.
  destruct (Z.leb_spec 0 i) as [_|?]; [|lia].
  destruct (Z.ltb_spec i (Z.of_nat (List.length l))) as [_|?]; [|lia].
  simpl. unfold array_set.
  by destruct (Nat.ltb_spec (Z.to_nat i) (List.length l)) as [_|?]; [|lia].
Qed.

(** The collection after an update within the bounds: the position holds
    what is serialised of the data. *)
Lemma stored_after_update env l websiteData i cors :
  stored_collection env l →
  (0 ≤ i < Z.of_nat (List.length l))%Z →
  stored_collection (handleUpdateRequest websiteData (VNum i) env cors).2
    (<[Z.to_nat i:=serialised_element websiteData]> l).
Proof.
  intros Hst Hi. rewrite (update_in_range env l) by done. simpl.
  pose proof (stored_after_put env (<[Z.to_nat i:=websiteData]> l)) as Hafter.
  by rewrite map_insert_element, (serialised_elements_id l)
    in Hafter by by eapply stored_stable.
Qed.

(** C2 (amended): for every stored collection [l] of length N, every record
    [R] that holds no infinite number and no negative zero, and every
    integer [i] with 0 <= i < N, the update action with data [R] and index
    [i] succeeds, and the get action that follows yields a collection of
    the same length N whose element at position [i] is [R] and whose
    elements at all other positions are those of [l]. *)
Theorem update_then_get env l R i cors :
  stored_collection env l →
  json_stable R = true →
  (0 ≤ i < Z.of_nat (List.length l))%Z →
  let result := handleUpdateRequest R (VNum i) env cors in
  result.1 = json_response success cors
  ∧ ∃ l', handleGetRequest result.2 cors = (websites_response l' cors, result.2)
      ∧ List.length l' = List.length l
      ∧ l' !! Z.to_nat i = Some R
      ∧ ∀ j, j ≠ Z.to_nat i → l' !! j = l !! j.
Proof.
  intros Hst HR Hi result.
  pose proof (stored_after_update env l R i cors Hst Hi) as Hafter.
  fold result in Hafter. rewrite (serialised_element_id R HR) in Hafter.
  split; [subst result; by rewrite (update_in_range env l)|].
  exists (<[Z.to_nat i:=R]> l). split_and!.
  - by apply get_stored.
  - apply length_insert.
  - apply list_lookup_insert_eq. lia.
  - intros j Hj. by apply list_lookup_insert_ne.
Qed.

(** C3: for every stored collection [l] of length N, every record [R] and
    every integer [i] with i < 0 or i >= N, the update action with index
    [i] responds 400 with the body "Invalid index" and writes nothing: the
    environment, and with it the stored collection, is unchanged. *)
Theorem update_out_of_range env l R i cors :
  stored_collection env l →
  (i < 0 ∨ Z.of_nat (List.length l) ≤ i)%Z →
  handleUpdateRequest R (VNum i) env cors
  = (text_response "Invalid index" 400 cors, env).
Proof.
  intros Hst Hi. unfold handleUpdateRequest.
  rewrite (stored_parse_websites env l Hst). simpl.
  destruct (Z.leb_spec 0 i) as [?|?]; [|done].
  destruct (Z.ltb_spec i (Z.of_nat (List.length l))) as [?|?]; [lia|done].
Qed.

(** *** The add action *)

(** The add action on a stored collection: the array written has the data
    at its end. *)
Lemma add_stored env l websiteData cors :
  stored_collection env l →
  handleAddRequest websiteData env cors
  = (json_response success cors,
     KV_put env "websites" (JSON_stringify (VArr (l ++ [websiteData])))).
Proof.
  intros Hst. unfold handleAddRequest.
  by rewrite (stored_parse_websites env l Hst).
Qed.

(** The collection after an add: the former one, followed by what is
    serialised of the data. *)
Lemma stored_after_add env l websiteData cors :
  stored_collection env l →
  stored_collection (handleAddRequest websiteData env cors).2
    (l ++ [serialised_element websiteData]).
Proof.
  intros Hst. rewrite (add_stored env l) by done. simpl.
  pose proof (stored_after_put env (l ++ [websiteData])) as Hafter.
  by rewrite map_app, (serialised_elements_id l) in Hafter by by eapply stored_stable.
Qed.

(** C5 (amended): for every record [R] that holds no infinite number and no
    negative zero, and every stored collection [l] (the empty one when the
    key is absent), the add action succeeds and the get action that follows
    yields a collection whose last element is [R] and whose length is one
    more than that of [l]: it is [l] with [R] appended. *)
Theorem add_then_get env l R cors :
  stored_collection env l →
  json_stable R = true →
  let result := handleAddRequest R env cors in
  result.1 = json_response success cors
  ∧ ∃ l', handleGetRequest result.2 cors = (websites_response l' cors, result.2)
      ∧ List.length l' = S (List.length l)
      ∧ last l' = Some R
      ∧ l' = (l ++ [R])%list.
Proof.
  intros Hst HR result.
  pose proof (stored_after_add env l R cors Hst) as Hafter.
  fold result in Hafter. rewrite (serialised_element_id R HR) in Hafter.
  split; [subst result; by rewrite (add_stored env l)|].
  exists (l ++ [R])%list. split_and!.
  - by apply get_stored.
  - rewrite length_app. simpl. lia.
  - apply last_snoc.
  - done.
Qed.

(** *** The delete action *)

Lemma strict_eq_refl v : is_primitive v = true → strict_eq v v = true.
Proof.
  destruct v; try done; simpl; intros _.
  - by destruct b.
  - apply Z.eqb_refl.
  - by rewrite eqb_reflx, N.eqb_refl, Pos.eqb_refl.
  - by destruct negative.
  - apply String.eqb_refl.
Qed.

Lemma other_id_defined id w :
  is_null w = false → is_undefined w = false →
  other_id id w = Some (negb (strict_eq (id_of w) id)).
Proof. by destruct w. Qed.

Lemma filterM_other_id id l :
  Forall (λ w, is_null w = false) l → forallb is_json l = true →
  filterM (other_id id) l
  = Some (List.filter (λ w, negb (strict_eq (id_of w) id)) l).
Proof.
  induction 1 as [|w l Hw _ IH]; [done|]. simpl. intros Hj.
  apply andb_true_iff in Hj as [Hjw Hjl].
  rewrite other_id_defined, IH by (done || by destruct w). simpl.
  by destruct (negb _).
Qed.

Lemma filter_stable (f : value → bool) l :
  forallb json_stable l = true → forallb json_stable (List.filter f l) = true.
Proof.
  induction l as [|x l IH]; [done|]. simpl. intros Hj.
  apply andb_true_iff in Hj as [Hx Hl]. destruct (f x); simpl; rewrite ?Hx; auto.
Qed.

Lemma filter_sublist (f : value → bool) l : sublist (List.filter f l) l.
Proof.
  induction l as [|x l IH]; [done|]. simpl.
  destruct (f x); by constructor.
Qed.

Lemma filter_all (f : value → bool) l :
  (∀ w, w ∈ l → f w = true) → List.filter f l = l.
Proof.
  induction l as [|x l IH]; [done|]. intros Hall. simpl.
  rewrite Hall by (by left). f_equal. apply IH. intros w Hw. apply Hall. by right.
Qed.

(** What [delete] followed by [get] answers. *)
Lemma delete_get env l id cors :
  stored_collection env l →
  Forall (λ w, is_null w = false) l →
  let result := handleDeleteRequest id env cors in
  let kept := List.filter (λ w, negb (strict_eq (id_of w) id)) l in
  result = (json_response success cors,
            KV_put env "websites" (JSON_stringify (VArr kept)))
  ∧ handleGetRequest result.2 cors = (websites_response kept cors, result.2).
Proof.
  intros Hst Hnull result kept. subst result kept. unfold handleDeleteRequest.
  rewrite (stored_parse_websites env l Hst). simpl.
  pose proof (stored_is_json env l Hst) as Hj.
  rewrite filterM_other_id by done. simpl. split; [done|].
  apply get_after_put. apply filter_stable. by eapply stored_stable.
Qed.

(** [filter] throws as soon as its function throws on an element. *)
Lemma filterM_throws f l x : x ∈ l → f x = None → filterM f l = None.
Proof.
  intros Hx Hf. induction l as [|y l IH]; [by apply elem_of_nil in Hx|].
  simpl. apply elem_of_cons in Hx as [->|Hx]; [by rewrite Hf|].
  destruct (f y); [|done]. simpl. by rewrite IH.
Qed.

Lemma delete_throws_on_null env l websiteId cors :
  parse_websites env = Some (VArr l) → VNull ∈ l →
  handleDeleteRequest websiteId env cors
  = (text_response "Error deleting website" 500 cors, env).
Proof.
  intros Hp Hnull. unfold handleDeleteRequest. rewrite Hp. simpl.
  by rewrite (filterM_throws _ l VNull).
Qed.

(** A collection has no [null] element, or it has one. *)
Lemma null_element_dec l : Forall (λ w, is_null w = false) l ∨ VNull ∈ l.
Proof.
  induction l as [|x l [IH|IH]]; [by left| |by right; right].
  destruct (is_null x) eqn:E; [right|left; by constructor].
  destruct x; try done. by left.
Qed.

(** C4 (amended): for every identifier [id] and every stored collection
    [l] none of whose elements is [null], the delete action responds
    [{success: true}] and writes back the elements of [l] whose [id] is not
    strictly equal to [id], in their original order; the get action that
    follows yields that collection.  No element of it has the given [id],
    every other element of [l] is kept, and when no element matches, the
    collection written back is [l] itself. *)
Theorem delete_then_get env l id cors :
  stored_collection env l →
  Forall (λ w, is_null w = false) l →
  let result := handleDeleteRequest id env cors in
  result.1 = json_response success cors
  ∧ ∃ l', result.2 = KV_put env "websites" (JSON_stringify (VArr l'))
      ∧ handleGetRequest result.2 cors = (websites_response l' cors, result.2)
      ∧ l' = List.filter (λ w, negb (strict_eq (id_of w) id)) l
      ∧ (∀ w, w ∈ l' → strict_eq (id_of w) id = false)
      ∧ (is_primitive id = true → ∀ w, w ∈ l' → id_of w ≠ id)
      ∧ sublist l' l
      ∧ (∀ w, w ∈ l → strict_eq (id_of w) id = false → w ∈ l')
      ∧ ((∀ w, w ∈ l → strict_eq (id_of w) id = false) → l' = l).
Proof.
  intros Hst Hnull result. subst result.
  destruct (delete_get env l id cors Hst Hnull) as [Hresult Hget].
  split; [by rewrite Hresult|]. eexists.
  split; [by rewrite Hresult|]. split; [exact Hget|]. split; [done|].
  assert (Hin : ∀ w, w ∈ List.filter (λ w, negb (strict_eq (id_of w) id)) l
                     ↔ w ∈ l ∧ strict_eq (id_of w) id = false).
  { intros w. rewrite !list_elem_of_In, filter_In, negb_true_iff. done. }
  split_and!.
  - intros w Hw. by apply Hin in Hw as [_ ?].
  - intros Hprim w Hw Heq. apply Hin in Hw as [_ Hw].
    rewrite Heq, strict_eq_refl in Hw; done.
  - apply filter_sublist.
  - intros w Hw Hne. by apply Hin.
  - intros Hall. apply filter_all. intros w Hw. by rewrite Hall.
Qed.

Lemma lookup_field_is_json k fs v :
  forallb (λ kv, is_json kv.2) fs = true →
  lookup_field k fs = Some v → is_json v = true.
Proof.
  induction fs as [|[k' x] fs IH]; [done|]. simpl. intros Hj.
  apply andb_true_iff in Hj as [Hx Hfs].
  destruct (lookup_field k fs) as [w|]; [intros [= <-]; by apply IH|].
  destruct (k =? k'); by intros [= <-].
Qed.

Lemma lacks_id_undefined w :
  is_json w = true → negb (strict_eq (id_of w) VUndefined) = has_id_field w.
Proof.
  destruct w as [| |b|n|sg wh d| |sg|s|l|fs]; try done. simpl. intros Hj.
  unfold id_of. simpl.
  destruct (lookup_field "id" fs) as [v|] eqn:E; simpl; [|done].
  apply (lookup_field_is_json _ _ _ Hj) in E. by destruct v.
Qed.

Lemma strict_eq_number_string v s :
  is_number v = true → strict_eq v (VStr s) = false.
Proof. by destruct v. Qed.

(** C10 (amended): the delete action compares by strict equality.  An
    element whose [id] is a number is kept by a delete whose identifier is
    a string (the string form of that number among them); and on a stored
    collection none of whose elements is [null], a delete request without
    an [id] field, whose identifier is [undefined], succeeds and removes
    exactly the elements that have no [id] field. *)
Theorem delete_is_type_sensitive env l cors :
  stored_collection env l →
  (∀ s,
     let result := handleDeleteRequest (VStr s) env cors in
     ∃ l', handleGetRequest result.2 cors = (websites_response l' cors, result.2)
       ∧ ∀ w, w ∈ l → is_number (id_of w) = true → w ∈ l')
  ∧ (Forall (λ w, is_null w = false) l →
     let result := handleDeleteRequest VUndefined env cors in
     result.1 = json_response success cors
     ∧ handleGetRequest result.2 cors
       = (websites_response (List.filter has_id_field l) cors, result.2)).
Proof.
  intros Hst. split.
  - intros s result. destruct (null_element_dec l) as [Hnull|Hnull].
    + destruct (delete_get env l (VStr s) cors Hst Hnull) as [_ Hget].
      eexists. split; [exact Hget|]. intros w Hw Hid.
      apply list_elem_of_In, filter_In. split; [by apply list_elem_of_In|].
      by rewrite strict_eq_number_string.
    + subst result. rewrite (delete_throws_on_null env l) by
        (by apply stored_parse_websites || done).
      exists l. split; [by apply get_stored|done].
  - intros Hnull result.
    destruct (delete_get env l VUndefined cors Hst Hnull) as [Hresult Hget].
    subst result. split; [by rewrite Hresult|]. rewrite Hget. f_equal. f_equal.
    apply filter_ext_in. intros w Hw. apply lacks_id_undefined.
    pose proof (stored_is_json env l Hst) as Hj.
    rewrite forallb_forall in Hj. by apply Hj.
Qed.

(** *** The invariant of the collection *)

Lemma array_text_stringify l : array_text (JSON_stringify (VArr l)).
Proof. eexists. by rewrite parse_stringify. Qed.

Lemma collection_valid_parse env v :
  collection_valid env → parse_websites env = Some v → ∃ l, v = VArr l.
Proof.
  unfold collection_valid, parse_websites.
  destruct (KV_get env "websites") as [t|]; [|intros _ [= <-]; eauto].
  intros [l Hl]. destruct (truthy t); [|intros [= <-]; eauto].
  rewrite Hl. intros [= <-]. eauto.
Qed.

Lemma wrote_array_valid env env' :
  collection_valid env → wrote_array env env' → collection_valid env'.
Proof.
  intros Hv [->|(t & Ht & ->)]; [done|].
  unfold collection_valid, KV_get, KV_put. simpl. by rewrite lookup_insert_eq.
Qed.

Lemma add_wrote_array websiteData env cors :
  wrote_array env (handleAddRequest websiteData env cors).2.
Proof.
  unfold handleAddRequest.
  destruct (parse_websites env) as [[]|]; simpl; try by left.
  right. eexists. split; [apply array_text_stringify|done].
Qed.

Lemma delete_wrote_array websiteId env cors :
  wrote_array env (handleDeleteRequest websiteId env cors).2.
Proof.
  unfold handleDeleteRequest.
  destruct (parse_websites env) as [[]|]; simpl; try by left.
  destruct (filterM _ _); simpl; [|by left].
  right. eexists. split; [apply array_text_stringify|done].
Qed.

Lemma update_wrote_array websiteData index env cors :
  collection_valid env →
  wrote_array env (handleUpdateRequest websiteData index env cors).2.
Proof.
  intros Hv. unfold handleUpdateRequest.
  destruct (parse_websites env) as [v|] eqn:E; simpl; [|by left].
  destruct (collection_valid_parse env v Hv E) as [l ->].
  destruct (in_bounds index (VArr l)) as [[]|]; simpl; try by left.
  right. eexists. split; [apply array_text_stringify|done].
Qed.

Lemma writes_are_array_text_handlers env :
  collection_valid env →
  (∀ d cors, collection_valid (handleAddRequest d env cors).2)
  ∧ (∀ d i cors, collection_valid (handleUpdateRequest d i env cors).2)
  ∧ (∀ i cors, collection_valid (handleDeleteRequest i env cors).2).
Proof.
  intros Hv. split_and!; intros;
    eauto using wrote_array_valid, add_wrote_array, update_wrote_array,
      delete_wrote_array.
Qed.

(** C6: when the key "websites" is absent or holds the JSON text of an
    array, each of the add, update and delete operations, whatever its
    arguments, either writes nothing or writes the JSON text of an array
    under that key; the key is then again absent or holds the JSON text of
    an array. *)
Theorem writes_are_array_text websiteData index websiteId env cors :
  collection_valid env →
  let after_add := (handleAddRequest websiteData env cors).2 in
  let after_update := (handleUpdateRequest websiteData index env cors).2 in
  let after_delete := (handleDeleteRequest websiteId env cors).2 in
  (wrote_array env after_add ∧ collection_valid after_add)
  ∧ (wrote_array env after_update ∧ collection_valid after_update)
  ∧ (wrote_array env after_delete ∧ collection_valid after_delete).
Proof.
  intros Hv after_add after_update after_delete.
  pose proof (add_wrote_array websiteData env cors).
  pose proof (update_wrote_array websiteData index env cors Hv).
  pose proof (delete_wrote_array websiteId env cors).
  eauto 10 using wrote_array_valid.
Qed.

(** X5: the invariant holds along every request: when the key "websites"
    is absent or holds the JSON text of an array, it is so again after
    [fetch], whatever the request. *)
Lemma fetch_collection_valid request env :
  collection_valid env → collection_valid (fetch request env).2.
Proof.
  intros Hv. unfold fetch.
  destruct (method request =? "OPTIONS")%string; [done|].
  destruct (_ && _); [|by destruct (_ || _)].
  unfold handleApiRequest.
  destruct (negb _); [done|].
  destruct (request_action request) as [[data action]|]; [|done].
  pose proof (writes_are_array_text_handlers env Hv) as Hw.
  repeat case_match; try done; try apply Hw.
  unfold handleGetRequest. by destruct (parse_websites env).
Qed.

(** *** The get action *)

(** C7: for every POST request whose body is valid JSON with the action
    "get", the response has status 200 and its body is the serialised
    object [{websites: X}], where [X] is the stored array, or the empty
    array when the key is absent; parsing the body gives that object. *)
Theorem get_action_response request data env l cors :
  method request = "POST" →
  JSON_parse (text request) = Some data →
  get_field data "action" = Some (VStr "get") →
  stored_collection env l →
  let response := (handleApiRequest request env cors).1 in
  status response = 200
  ∧ body response = JSON_stringify (VObj [("websites", VArr l)])
  ∧ JSON_parse (body response) = Some (VObj [("websites", VArr l)]).
Proof.
  intros Hm Hdata Haction Hst response. subst response.
  unfold handleApiRequest, request_action. rewrite Hm, Hdata. simpl.
  rewrite Haction. simpl. unfold handleGetRequest.
  rewrite (stored_parse_websites env l Hst). simpl. split_and!; try done.
  rewrite parse_stringify by done.
  pose proof (stored_stable env l Hst) as Hj.
  by rewrite (to_json_id (VObj [("websites", VArr l)])) by (simpl; by rewrite Hj).
Qed.

End WorkerFacts.

(** ** The reference host satisfies the laws *)

Module ReferenceFacts.
Import Reference.
Local Open Scope char_scope.
Local Open Scope list_scope.

(** *** Numbers *)

Lemma ends_number_no_digit rest : ends_number rest → no_digit rest.
Proof. destruct rest; [done|]. by intros [? _]. Qed.

Lemma span_digits_stop rest : no_digit rest → span_digits rest = ([], rest).
Proof. destruct rest as [|c r]; simpl; [done|]. by intros ->. Qed.

Lemma span_digits_app ds rest :
  forallb is_digit ds = true → no_digit rest →
  span_digits (ds ++ rest) = (ds, rest).
Proof.
  intros Hds Hrest. induction ds as [|c ds IH]; [by apply span_digits_stop|].
  simpl in Hds. apply andb_true_iff in Hds as [Hc Hds].
  simpl. by rewrite Hc, IH.
Qed.

Lemma digits_are_digits u : forallb is_digit (digits u) = true.
Proof. unfold digits. induction u; simpl; auto. Qed.

Lemma rev_digits_are_digits u : forallb is_digit (rev (digits u)) = true.
Proof.
  apply forallb_forall. intros c Hc. apply in_rev in Hc.
  pose proof (digits_are_digits u) as Hu. rewrite forallb_forall in Hu. by apply Hu.
Qed.

Lemma span_digits_digits u rest :
  no_digit rest → span_digits (digits u ++ rest) = (digits u, rest).
Proof. apply span_digits_app, digits_are_digits. Qed.

Lemma uint_of_digits u :
  NilEmpty.uint_of_string (string_of_list_ascii (digits u)) = Some u.
Proof.
  unfold digits. rewrite string_of_list_ascii_of_string. apply NilEmpty.usu.
Qed.

(** The digits of a positive number start with a digit that is not 0. *)
Lemma to_uint_head p :
  ∃ c ds, digits (Pos.to_uint p) = c :: ds ∧ is_digit c = true
          ∧ (c =? "0") = false.
Proof.
  assert (Hn : Decimal.unorm (Pos.to_uint p) = Pos.to_uint p).
  { rewrite <- (Unsigned.to_of (Pos.to_uint p)), Unsigned.of_to. reflexivity. }
  pose proof (Unsigned.to_uint_nonzero p) as Hz.
  pose proof (nzhead_nonzero (Pos.to_uint p)) as Hh.
  unfold Decimal.unorm in Hn.
  destruct (Decimal.nzhead (Pos.to_uint p)) eqn:E;
    try (rewrite <- Hn; unfold digits; simpl; eexists _, _; split; [reflexivity|];
         split; reflexivity).
  - by rewrite <- Hn in Hz.
  - by destruct (Hh u).
Qed.

Lemma leading_zero_head c ds : (c =? "0") = false → leading_zero (c :: ds) = false.
Proof. intros Hc. by destruct ds. Qed.

(** A positive number is printed as its digits. *)
Lemma print_uint p :
  list_ascii_of_string (NilZero.string_of_uint (Pos.to_uint p))
  = digits (Pos.to_uint p).
Proof.
  pose proof (Unsigned.to_uint_nonnil p). unfold digits.
  by destruct (Pos.to_uint p).
Qed.

(** The digits of a natural number: they are read back as the number, and
    do not start with a superfluous zero. *)
Lemma print_N whole :
  ∃ u c ds, print_Z (Z.of_N whole) = digits u ∧ N.of_uint u = whole
    ∧ digits u = c :: ds ∧ is_digit c = true ∧ leading_zero (c :: ds) = false.
Proof.
  destruct whole as [|p].
  - by exists (Decimal.D0 Decimal.Nil), "0", [].
  - destruct (to_uint_head p) as (c & ds & E & Hd & Hz).
    exists (Pos.to_uint p), c, ds. unfold print_Z. simpl. rewrite print_uint.
    split; [done|]. split; [apply Unsigned.of_to|].
    split; [done|]. split; [done|]. by apply leading_zero_head.
Qed.

(** Parsing the printed digits after a decimal point gives them back. *)
Lemma parse_fraction_print p rest :
  ends_number rest →
  parse_fraction (print_fraction p ++ rest) = Some (p, rest).
Proof.
  intros Hrest. unfold parse_fraction, print_fraction.
  rewrite span_digits_app;
    [|by apply rev_digits_are_digits|by apply ends_number_no_digit].
  rewrite rev_involutive.
  destruct (to_uint_head p) as (c & ds & E & _ & Hz). rewrite E, Hz.
  assert (exponent_follows rest = false) as ->.
  { destruct rest; [done|]. apply Hrest. }
  simpl orb. cbv iota. rewrite <- E, uint_of_digits. simpl.
  unfold N.of_uint. by rewrite Unsigned.of_to.
Qed.

(** Parsing the printed integer part of a number. *)
Lemma parse_unsigned_print negative whole tail :
  no_digit tail → exponent_follows tail = false →
  parse_unsigned negative (print_Z (Z.of_N whole) ++ tail)
  = match tail with
    | c :: tail' =>
        if c =? "." then
          '(p, rest) ← parse_fraction tail'; Some (VFrac negative whole p, rest)
        else Some (integer negative whole, tail)
    | [] => Some (integer negative whole, tail)
    end.
Proof.
  intros Htail Hexp. unfold parse_unsigned.
  destruct (print_N whole) as (u & c & ds & -> & <- & E & _ & Hz).
  rewrite span_digits_digits by done. rewrite E, Hz, Hexp. simpl orb. cbv iota.
  rewrite <- E, uint_of_digits. reflexivity.
Qed.

(** A printed number starts with its sign or with a digit. *)
Lemma print_number_head v :
  is_literal v = true →
  ∃ c r, print v = c :: r ∧ ((c =? "-") = true ∨ is_digit c = true).
Proof.
  destruct v as [| | |n|negative whole p| | | | |]; try done; intros _.
  - unfold print, print_Z. destruct n as [|p|p]; simpl;
      try (eexists _, _; split; [reflexivity|by auto]).
    rewrite print_uint.
    destruct (to_uint_head p) as (c & ds & -> & Hd & _).
    eexists _, _; split; [reflexivity|by auto].
  - simpl. destruct negative; simpl; [eexists _, _; split; [reflexivity|by auto]|].
    destruct (print_N whole) as (u & c & ds & -> & _ & -> & Hd & _).
    eexists _, _; split; [reflexivity|by auto].
Qed.

(** Parsing a printed number gives the number back. *)
Lemma parse_number_print v rest :
  is_literal v = true → ends_number rest →
  parse_number (print v ++ rest) = Some (v, rest).
Proof.
  assert (Hdot : ∀ t, no_digit ("." :: t) ∧ exponent_follows ("." :: t) = false)
    by done.
  assert (Hdigit : ∀ whole t,
    parse_number (print_Z (Z.of_N whole) ++ t)
    = parse_unsigned false (print_Z (Z.of_N whole) ++ t)).
  { intros whole t.
    destruct (print_N whole) as (u & c & ds & -> & _ & -> & Hd & _). simpl.
    assert ((c =? "-") = false) as ->; [|done].
    by destruct (Ascii.eqb_spec c "-") as [->|]. }
  destruct v as [| | |n|negative whole p| | | | |]; try done; intros _ Hrest.
  - assert (Hint : ∀ negative whole,
      parse_unsigned negative (print_Z (Z.of_N whole) ++ rest)
      = Some (integer negative whole, rest)).
    { intros negative whole. rewrite parse_unsigned_print;
        [|by apply ends_number_no_digit|destruct rest; [done|apply Hrest]].
      destruct rest as [|c rest]; [done|].
      destruct Hrest as (_ & -> & _). done. }
    simpl print. destruct n as [|p|p].
    + by rewrite (Hdigit 0%N), (Hint false 0%N).
    + by rewrite (Hdigit (N.pos p)), (Hint false (N.pos p)).
    + change (print_Z (Z.neg p)) with ("-" :: print_Z (Z.of_N (N.pos p))).
      exact (Hint true (N.pos p)).
  - simpl print. rewrite <- !app_assoc. simpl app.
    assert (parse_unsigned negative
              (print_Z (Z.of_N whole) ++ "." :: print_fraction p ++ rest)
            = Some (VFrac negative whole p, rest)) as Hfrac.
    { rewrite parse_unsigned_print by apply Hdot. simpl.
      by rewrite parse_fraction_print. }
    destruct negative; simpl; [done|]. by rewrite Hdigit.
Qed.

(** The parser of numbers returns numbers. *)
Lemma parse_unsigned_is_json negative s v r :
  parse_unsigned negative s = Some (v, r) → is_json v = true.
Proof.
  unfold parse_unsigned, integer.
  repeat case_match; intros; simplify_option_eq; repeat case_match;
    by simplify_eq.
Qed.

(** *** Strings *)

(** Parsing an escaped character gives the character back. *)
Lemma parse_escape_char c tail :
  parse_string_body (escape_char c ++ tail)
  = '(str, rest) ← parse_string_body tail; Some (String c str, rest).
Proof. destruct c as [[] [] [] [] [] [] [] []]; reflexivity. Qed.

Lemma parse_escape_string s rest :
  parse_string_body (escape_string s ++ quote :: rest) = Some (s, rest).
Proof.
  induction s as [|c s IH]; [reflexivity|].
  simpl escape_string. rewrite <- app_assoc, parse_escape_char, IH. reflexivity.
Qed.

(** *** Values *)

(** The printed form of an array and of an object. *)
Lemma print_arr l : print (VArr l) = "[" :: print_elems l ++ ["]"].
Proof. reflexivity. Qed.

Lemma print_obj fs : print (VObj fs) = "{" :: print_members fs ++ ["}"].
Proof. reflexivity. Qed.

Lemma delim_ends_number rest : delim rest → ends_number rest.
Proof. destruct rest as [|c r]; [done|]. by intros [->|[->| ->]]. Qed.

Lemma print_head v : ∃ c r, print v = c :: r ∧ opens_value c.
Proof.
  destruct (is_literal v) eqn:E.
  - destruct (print_number_head v E) as (c & r & -> & Hc).
    eexists _, _; split; [reflexivity|].
    revert Hc. clear. by destruct c as [[] [] [] [] [] [] [] []]; intros [?|?].
  - destruct v as [| |[]| | | | | | |]; try done;
      eexists _, _; split; try reflexivity; done.
Qed.

(** Parsing the printed elements of an array gives them back, when parsing
    each of them does. *)
Lemma parse_print_elems l :
  l ≠ [] → Forall roundtrips l → forallb json_stable l = true →
  ∀ fuel rest, (List.length (print_elems l) + 1 ≤ fuel)%nat →
    parse_elements fuel (print_elems l ++ "]" :: rest) = Some (l, rest).
Proof.
  induction l as [|x l IH]; [done|]. intros _ Hall Hjson fuel rest Hfuel.
  apply Forall_cons in Hall as [Hx Hl].
  simpl in Hjson. apply andb_true_iff in Hjson as [Hjx Hjl].
  destruct fuel as [|fuel]; [lia|].
  simpl print_elems in *. rewrite length_app in Hfuel.
  rewrite <- app_assoc. simpl parse_elements.
  destruct l as [|y l].
  - rewrite Hx; [|done|simpl in *; lia|simpl; auto]. reflexivity.
  - simpl length in Hfuel.
    rewrite Hx; [|done|lia|simpl; auto]. simpl.
    rewrite IH; [done|done|done|done|]. simpl in *. lia.
Qed.

Lemma parse_print_members fs :
  fs ≠ [] → Forall (λ kv, roundtrips kv.2) fs →
  forallb (λ kv, json_stable kv.2) fs = true →
  ∀ fuel rest, (List.length (print_members fs) + 1 ≤ fuel)%nat →
    parse_members fuel (print_members fs ++ "}" :: rest) = Some (fs, rest).
Proof.
  induction fs as [|[k x] fs IH]; [done|]. intros _ Hall Hjson fuel rest Hfuel.
  apply Forall_cons in Hall as [Hx Hl].
  simpl in Hjson. apply andb_true_iff in Hjson as [Hjx Hjl].
  destruct fuel as [|fuel]; [lia|].
  simpl print_members in *. unfold print_string in *.
  simpl length in Hfuel. rewrite !length_app in Hfuel. simpl length in Hfuel.
  rewrite ?length_app in Hfuel. simpl length in Hfuel.
  simpl parse_members.
  rewrite <- !app_assoc. simpl. rewrite <- ?app_assoc. rewrite parse_escape_string.
  simpl. rewrite <- ?app_assoc.
  destruct fs as [|y fs].
  - rewrite Hx; [|done|simpl in *; lia|simpl; auto]. reflexivity.
  - simpl length in Hfuel.
    rewrite Hx; [|done|simpl in *; lia|simpl; auto]. simpl.
    rewrite IH; [done|done|done|done|]. simpl in *. lia.
Qed.

Lemma parse_value_number fuel c r :
  (c =? "-") = true ∨ is_digit c = true →
  parse_value (S fuel) (c :: r) = parse_number (c :: r).
Proof.
  destruct c as [[] [] [] [] [] [] [] []]; intros [?|?];
    try discriminate; reflexivity.
Qed.

(** Parsing a printed number inside a text. *)
Lemma parse_value_print_number v fuel rest :
  is_literal v = true → delim rest →
  parse_value (S fuel) (print v ++ rest) = Some (v, rest).
Proof.
  intros Hv Hrest. destruct (print_number_head v Hv) as (c & r & E & Hc).
  rewrite E. simpl app. rewrite parse_value_number by done.
  rewrite (app_comm_cons r rest c), <- E.
  by rewrite parse_number_print by by (done || apply delim_ends_number).
Qed.

Lemma parse_value_arr fuel s :
  parse_value (S fuel) ("[" :: s)
  = match skip_ws s with
    | [] => None
    | c' :: r' =>
        if c' =? "]" then Some (VArr [], r')
        else '(l, r'') ← parse_elements fuel (c' :: r'); Some (VArr l, r'')
    end.
Proof. reflexivity. Qed.

Lemma parse_value_obj fuel s :
  parse_value (S fuel) ("{" :: s)
  = match skip_ws s with
    | [] => None
    | c' :: r' =>
        if c' =? "}" then Some (VObj [], r')
        else '(fs, r'') ← parse_members fuel (c' :: r'); Some (VObj fs, r'')
    end.
Proof. reflexivity. Qed.

(** Parsing the printed form of a value that is printed as it is gives the
    value back. *)
Lemma parse_print v : roundtrips v.
Proof.
  induction v as [| |b|n|negative whole p| |negative|s|l IH|fs IH] using value_ind';
    intros Hjson fuel rest Hfuel Hrest; try discriminate;
    (destruct fuel as [|fuel];
       [exfalso; revert Hfuel; edestruct print_head as (c & r & -> & _); simpl; lia|]).
  - reflexivity.
  - by destruct b.
  - by apply parse_value_print_number.
  - by apply parse_value_print_number.
  - simpl print. unfold print_string. simpl app. rewrite <- app_assoc. simpl.
    rewrite parse_escape_string. reflexivity.
  - rewrite print_arr in *. simpl in Hjson. simpl length in Hfuel.
    rewrite length_app in Hfuel. simpl app. rewrite <- app_assoc.
    simpl app. destruct l as [|x l]; [reflexivity|].
    rewrite parse_value_arr.
    set (t := print_elems (x :: l) ++ "]" :: rest).
    assert (∃ c r, t = c :: r ∧ opens_value c) as (c & r & Et & Hws & Hc & _).
    { destruct (print_head x) as (c & r & E & Hc). unfold t. simpl.
      rewrite E. simpl. eauto. }
    rewrite Et. cbn [skip_ws]. rewrite Hws, Hc, <- Et. unfold t.
    rewrite parse_print_elems; [done|done|done|done|simpl in *; lia].
  - rewrite print_obj in *. simpl in Hjson. simpl length in Hfuel.
    rewrite length_app in Hfuel. simpl app. rewrite <- app_assoc.
    simpl app. destruct fs as [|[k x] fs]; [reflexivity|].
    rewrite parse_value_obj.
    set (t := print_members ((k, x) :: fs) ++ "}" :: rest).
    assert (∃ r, t = quote :: r) as [r Et].
    { unfold t. simpl. unfold print_string. simpl. eauto. }
    rewrite Et. cbn [skip_ws]. 
    change (is_ws quote) with false. change (quote =? "}") with false. cbv iota.
    rewrite <- Et. unfold t.
    rewrite parse_print_members; [done|done|done|done|simpl in *; lia].
Qed.

Lemma parse_stringify_ref v :
  is_undefined v = false → parse (stringify v) = Some (to_json v).
Proof.
  intros Hv. unfold parse, stringify.
  rewrite list_ascii_of_string_of_list_ascii.
  rewrite <- (app_nil_r (print (to_json v))) at 2.
  rewrite parse_print; [done| |lia|done]. by apply to_json_stable.
Qed.

(** The parser returns JSON values only. *)
Lemma parse_sound fuel :
  (∀ s v r, parse_value fuel s = Some (v, r) → is_json v = true)
  ∧ (∀ s l r, parse_elements fuel s = Some (l, r) → forallb is_json l = true)
  ∧ (∀ s fs r, parse_members fuel s = Some (fs, r) →
       forallb (λ kv, is_json kv.2) fs = true).
Proof.
  induction fuel as [|fuel (IHv & IHe & IHm)]; [done|].
  split_and!.
  - intros s v r. simpl. destruct (skip_ws s) as [|c t]; [done|].
    repeat case_match; intros; eauto using parse_unsigned_is_json;
      simplify_option_eq; repeat case_match; simplify_eq; simpl; eauto.
  - intros s l r. simpl.
    destruct (parse_value fuel s) as [[v t]|] eqn:Ev; [|done]. simpl.
    apply IHv in Ev.
    repeat case_match; intros; simplify_option_eq;
      repeat case_match; simplify_eq; simpl; rewrite ?Ev; simpl; eauto.
  - intros s fs r. simpl.
    destruct (skip_ws s) as [|c t]; [done|]. destruct (c =? quote); [|done].
    destruct (parse_string_body t) as [[k r1]|]; [|done]. simpl.
    destruct (skip_ws r1) as [|c1 r2]; [done|]. destruct (c1 =? ":"); [|done].
    destruct (parse_value fuel r2) as [[v r3]|] eqn:Ev; [|done]. simpl.
    apply IHv in Ev.
    destruct (skip_ws r3) as [|c3 r4]; [done|]. destruct (c3 =? ",").
    + destruct (parse_members fuel r4) as [[fs' r5]|] eqn:Em; [|done]. simpl.
      intros [= <- <-]. simpl. rewrite Ev. by apply IHm in Em.
    + destruct (c3 =? "}"); [|done]. intros [= <- <-]. simpl. by rewrite Ev.
Qed.

Lemma parse_is_json_ref t v : parse t = Some v → is_json v = true.
Proof.
  unfold parse. intros Hp.
  destruct (parse_value _ _) as [[w r]|] eqn:E; [|done]. simpl in Hp.
  destruct (skip_ws r); [|done]. simplify_eq.
  by eapply parse_sound.
Qed.

(** The reference host satisfies the laws. *)
Lemma reference_laws : HostLaws host.
Proof.
  split.
  - exact parse_stringify_ref.
  - exact parse_is_json_ref.
  - reflexivity.
Qed.
End ReferenceFacts.

(** ** Runs on the reference host *)

Section Runs.
Import Reference ReferenceFacts.
Local Existing Instance host.
Local Existing Instance reference_laws.

(** The collections of the sample stores. *)
Lemma stored_ab : stored_collection env_ab [site_a; site_b].
Proof. right. eexists. split_and!; vm_compute; reflexivity. Defined.

Lemma stored_mixed : stored_collection env_mixed [site_7; untitled; site_a].
Proof. right. eexists. split_and!; vm_compute; reflexivity. Defined.

Lemma stored_empty : stored_collection env_empty [].
Proof. left. split; reflexivity. Defined.

Lemma stored_with_null : stored_collection env_with_null [site_a; VNull].
Proof. right. eexists. split_and!; vm_compute; reflexivity. Defined.

Lemma stored_untitled_null : stored_collection env_untitled_null [untitled; VNull].
Proof. right. eexists. split_and!; vm_compute; reflexivity. Defined.

(** C2 as it is worded fails on a record with a number beyond the range of
    the doubles, which the body [{"id":"c","visits":1e999}] carries: the
    update at position 0 of [[site_a; site_b]] succeeds, and the get action
    yields at position 0 the record with [null] for that number, which is
    not the record of the request. *)
Lemma update_then_get_counterexample :
  stored_collection env_ab [site_a; site_b]
  ∧ is_json site_inf = true
  ∧ (0 ≤ 0 < Z.of_nat (List.length [site_a; site_b]))%Z
  ∧ (handleUpdateRequest site_inf (VNum 0) env_ab corsHeaders).1
    = json_response success corsHeaders
  ∧ handleGetRequest (handleUpdateRequest site_inf (VNum 0) env_ab corsHeaders).2
      corsHeaders
    = (websites_response [site_inf_read; site_b] corsHeaders,
       (handleUpdateRequest site_inf (VNum 0) env_ab corsHeaders).2)
  ∧ [site_inf_read; site_b] !! 0%nat ≠ Some site_inf.
Proof.
  split; [exact stored_ab|]. split; [reflexivity|]. split; [simpl; lia|].
  split; [vm_compute; reflexivity|]. split; [vm_compute; reflexivity|].
  discriminate.
Qed.

(** Updating position 0 of [[site_a; site_b]] with [site_a2]. *)
Lemma update_then_get_witness :
  stored_collection env_ab [site_a; site_b]
  ∧ json_stable site_a2 = true
  ∧ (0 ≤ 0 < Z.of_nat (List.length [site_a; site_b]))%Z
  ∧ ∃ l', handleGetRequest (handleUpdateRequest site_a2 (VNum 0) env_ab corsHeaders).2
            corsHeaders
          = (websites_response l' corsHeaders,
             (handleUpdateRequest site_a2 (VNum 0) env_ab corsHeaders).2)
      ∧ List.length l' = 2
      ∧ l' !! 0%nat = Some site_a2
      ∧ l' !! 1%nat = Some site_b.
Proof.
  split; [exact stored_ab|]. split; [reflexivity|]. split; [simpl; lia|].
  destruct (update_then_get env_ab [site_a; site_b] site_a2 0 corsHeaders
              stored_ab eq_refl ltac:(simpl; lia))
    as (_ & l' & Hget & Hlen & Hi & Hother).
  exists l'. split; [exact Hget|]. split; [exact Hlen|]. split; [exact Hi|].
  by rewrite (Hother 1%nat).
Defined.

(** Updating position 2 of a collection of length 2. *)
Lemma update_out_of_range_witness :
  stored_collection env_ab [site_a; site_b]
  ∧ (2 < 0 ∨ Z.of_nat (List.length [site_a; site_b]) ≤ 2)%Z
  ∧ handleUpdateRequest site_a2 (VNum 2) env_ab corsHeaders
    = (text_response "Invalid index" 400 corsHeaders, env_ab).
Proof.
  split; [exact stored_ab|]. split; [right; simpl; lia|].
  apply (update_out_of_range env_ab [site_a; site_b] site_a2 2 corsHeaders stored_ab).
  right. simpl. lia.
Defined.

(** C5 as it is worded fails on the same record: the add action on
    [[site_a; site_b]] succeeds, and the get action yields a collection of
    length 3 whose last element has [null] for the number, which is not the
    record of the request. *)
Lemma add_then_get_counterexample :
  stored_collection env_ab [site_a; site_b]
  ∧ is_json site_inf = true
  ∧ (handleAddRequest site_inf env_ab corsHeaders).1
    = json_response success corsHeaders
  ∧ handleGetRequest (handleAddRequest site_inf env_ab corsHeaders).2 corsHeaders
    = (websites_response [site_a; site_b; site_inf_read] corsHeaders,
       (handleAddRequest site_inf env_ab corsHeaders).2)
  ∧ last [site_a; site_b; site_inf_read] ≠ Some site_inf.
Proof.
  split; [exact stored_ab|]. split; [reflexivity|].
  split; [vm_compute; reflexivity|]. split; [vm_compute; reflexivity|].
  discriminate.
Qed.

(** Adding [site_7] to [[site_a; site_b]], and adding [site_a] when the key
    is absent. *)
Lemma add_then_get_witness :
  (stored_collection env_ab [site_a; site_b]
   ∧ json_stable site_7 = true
   ∧ ∃ l', handleGetRequest (handleAddRequest site_7 env_ab corsHeaders).2 corsHeaders
           = (websites_response l' corsHeaders,
              (handleAddRequest site_7 env_ab corsHeaders).2)
       ∧ List.length l' = 3 ∧ last l' = Some site_7
       ∧ l' = [site_a; site_b; site_7])
  ∧ (stored_collection env_empty []
     ∧ json_stable site_a = true
     ∧ ∃ l', handleGetRequest (handleAddRequest site_a env_empty corsHeaders).2
               corsHeaders
             = (websites_response l' corsHeaders,
                (handleAddRequest site_a env_empty corsHeaders).2)
         ∧ List.length l' = 1 ∧ last l' = Some site_a).
Proof.
  split.
  - split; [exact stored_ab|]. split; [reflexivity|].
    destruct (add_then_get env_ab [site_a; site_b] site_7 corsHeaders stored_ab eq_refl)
      as (_ & l' & Hget & Hlen & Hlast & Hl').
    exists l'. by split_and!.
  - split; [exact stored_empty|]. split; [reflexivity|].
    destruct (add_then_get env_empty [] site_a corsHeaders stored_empty eq_refl)
      as (_ & l' & Hget & Hlen & Hlast & _).
    exists l'. by split_and!.
Defined.

Lemma no_null_ab : Forall (λ w, is_null w = false) [site_a; site_b].
Proof. repeat constructor. Defined.

Lemma no_null_mixed : Forall (λ w, is_null w = false) [site_7; untitled; site_a].
Proof. repeat constructor. Defined.

(** C4 as it is worded fails on a collection with a [null] element, which
    an add action without data leaves behind: on [[site_a; null]] the
    delete of the identifier [a] answers 500 and writes nothing, and the
    get action still yields the element whose [id] is [a]. *)
Lemma delete_then_get_counterexample :
  stored_collection env_with_null [site_a; VNull]
  ∧ handleDeleteRequest (VStr "a") env_with_null corsHeaders
    = (text_response "Error deleting website" 500 corsHeaders, env_with_null)
  ∧ handleGetRequest (handleDeleteRequest (VStr "a") env_with_null corsHeaders).2
      corsHeaders
    = (websites_response [site_a; VNull] corsHeaders,
       (handleDeleteRequest (VStr "a") env_with_null corsHeaders).2)
  ∧ site_a ∈ [site_a; VNull]
  ∧ id_of site_a = VStr "a".
Proof.
  split; [exact stored_with_null|].
  split; [vm_compute; reflexivity|]. split; [vm_compute; reflexivity|].
  split; [by left|reflexivity].
Qed.

(** Deleting the identifier [b] from [[site_a; site_b]]. *)
Lemma delete_then_get_witness :
  stored_collection env_ab [site_a; site_b]
  ∧ Forall (λ w, is_null w = false) [site_a; site_b]
  ∧ handleGetRequest (handleDeleteRequest (VStr "b") env_ab corsHeaders).2 corsHeaders
    = (websites_response [site_a] corsHeaders,
       (handleDeleteRequest (VStr "b") env_ab corsHeaders).2).
Proof.
  split; [exact stored_ab|]. split; [exact no_null_ab|].
  destruct (delete_then_get env_ab [site_a; site_b] (VStr "b") corsHeaders
              stored_ab no_null_ab)
    as (_ & l' & _ & Hget & -> & _).
  exact Hget.
Defined.

(** C10 as it is worded fails on a collection with a [null] element: on
    [[untitled; null]] the delete without an identifier answers 500 and
    writes nothing, and the get action still yields the element that has no
    [id] field. *)
Lemma delete_is_type_sensitive_counterexample :
  stored_collection env_untitled_null [untitled; VNull]
  ∧ has_id_field untitled = false
  ∧ handleDeleteRequest VUndefined env_untitled_null corsHeaders
    = (text_response "Error deleting website" 500 corsHeaders, env_untitled_null)
  ∧ handleGetRequest (handleDeleteRequest VUndefined env_untitled_null corsHeaders).2
      corsHeaders
    = (websites_response [untitled; VNull] corsHeaders,
       (handleDeleteRequest VUndefined env_untitled_null corsHeaders).2)
  ∧ untitled ∈ [untitled; VNull].
Proof.
  split; [exact stored_untitled_null|]. split; [reflexivity|].
  split; [vm_compute; reflexivity|]. split; [vm_compute; reflexivity|].
  by left.
Qed.

(** Deleting the string [7], then deleting without an identifier, from
    [[site_7; untitled; site_a]]. *)
Lemma delete_is_type_sensitive_witness :
  stored_collection env_mixed [site_7; untitled; site_a]
  ∧ Forall (λ w, is_null w = false) [site_7; untitled; site_a]
  ∧ (∃ l', handleGetRequest (handleDeleteRequest (VStr "7") env_mixed corsHeaders).2
             corsHeaders
           = (websites_response l' corsHeaders,
              (handleDeleteRequest (VStr "7") env_mixed corsHeaders).2)
       ∧ site_7 ∈ l')
  ∧ (handleDeleteRequest VUndefined env_mixed corsHeaders).1
    = json_response success corsHeaders
  ∧ handleGetRequest (handleDeleteRequest VUndefined env_mixed corsHeaders).2 corsHeaders
    = (websites_response [site_7; site_a] corsHeaders,
       (handleDeleteRequest VUndefined env_mixed corsHeaders).2).
Proof.
  split; [exact stored_mixed|]. split; [exact no_null_mixed|].
  destruct (delete_is_type_sensitive env_mixed [site_7; untitled; site_a] corsHeaders
              stored_mixed) as [Hstr Hundef].
  split; [|exact (Hundef no_null_mixed)].
  destruct (Hstr "7") as (l' & Hget & Hkept).
  exists l'. split; [exact Hget|]. apply Hkept; [by left|reflexivity].
Defined.

Lemma valid_ab : collection_valid env_ab.
Proof. exists [site_a; site_b]. vm_compute. reflexivity. Defined.

(** The three operations on [env_ab]. *)
Lemma writes_are_array_text_witness :
  collection_valid env_ab
  ∧ collection_valid (handleAddRequest site_7 env_ab corsHeaders).2
  ∧ collection_valid (handleUpdateRequest site_a2 (VNum 0) env_ab corsHeaders).2
  ∧ collection_valid (handleDeleteRequest (VStr "a") env_ab corsHeaders).2.
Proof.
  split; [exact valid_ab|].
  destruct (writes_are_array_text site_7 (VNum 0) (VStr "a") env_ab corsHeaders valid_ab)
    as ((_ & Hadd) & _ & (_ & Hdel)).
  destruct (writes_are_array_text site_a2 (VNum 0) (VStr "a") env_ab corsHeaders valid_ab)
    as (_ & (_ & Hupd) & _).
  by split_and!.
Defined.

(** The get action on [env_ab]. *)
Lemma get_action_response_witness :
  method get_request = "POST"
  ∧ JSON_parse (text get_request) = Some (VObj [("action", VStr "get")])
  ∧ get_field (VObj [("action", VStr "get")]) "action" = Some (VStr "get")
  ∧ stored_collection env_ab [site_a; site_b]
  ∧ JSON_parse (body (handleApiRequest get_request env_ab corsHeaders).1)
    = Some (VObj [("websites", VArr [site_a; site_b])]).
Proof.
  assert (Hbody : JSON_parse (text get_request) = Some (VObj [("action", VStr "get")]))
    by (vm_compute; reflexivity).
  split; [reflexivity|]. split; [exact Hbody|]. split; [reflexivity|].
  split; [exact stored_ab|].
  by destruct (get_action_response get_request _ env_ab [site_a; site_b] corsHeaders
                 eq_refl Hbody eq_refl stored_ab) as (_ & _ & Hparse).
Defined.

(** The scenario of the specification: on an empty store, add [site_a],
    add [site_b], replace position 0 by [site_a2], delete the identifier
    [b]; the get action is sent after the first, the third and the last
    step. *)
Example scenario :
  let action name fields := api_request (VObj (("action", VStr name) :: fields)) in
  let websites env := body (fetch get_request env).1 in
  let env1 := (fetch (action "add" [("data", site_a)]) env_empty).2 in
  let env2 := (fetch (action "add" [("data", site_b)]) env1).2 in
  let env3 := (fetch (action "update" [("data", site_a2); ("index", VNum 0)]) env2).2 in
  let env4 := (fetch (action "delete" [("id", VStr "b")]) env3).2 in
  websites env1 = stringify (VObj [("websites", VArr [site_a])])
  ∧ websites env3 = stringify (VObj [("websites", VArr [site_a2; site_b])])
  ∧ websites env4 = stringify (VObj [("websites", VArr [site_a2])]).
Proof. vm_compute. done. Qed.

End Runs.

(** * Further properties *)

(** ** The router and the dispatcher *)

Section RouterMore.
Context {H : Host}.
Implicit Types (env : Env) (request : Request) (cors : list (string * string)).

Lemma handler_statuses d i env cors :
  answer_status (status (handleGetRequest env cors).1)
  ∧ answer_status (status (handleAddRequest d env cors).1)
  ∧ answer_status (status (handleUpdateRequest d i env cors).1)
  ∧ answer_status (status (handleDeleteRequest i env cors).1).
Proof.
  unfold handleGetRequest, handleAddRequest, handleUpdateRequest,
    handleDeleteRequest, answer_status.
  split_and!; repeat case_match; simpl; auto.
Qed.

(** X1: every request is answered with status 200, 400, 404 or 500. *)
Theorem fetch_status_codes request env :
  answer_status (status (fetch request env).1).
Proof.
  unfold fetch.
  destruct (method request =? "OPTIONS")%string; [by left|].
  destruct (String.eqb_spec (method request) "POST") as [Hm|]; simpl.
  - destruct (_ || _).
    + unfold handleApiRequest. rewrite Hm. simpl.
      destruct (request_action request) as [[data action]|];
        [|unfold answer_status; simpl; auto].
      repeat case_match; try apply handler_statuses;
        unfold answer_status; simpl; auto.
    + destruct (_ || _); simpl;
        match goal with
        | |- context [serveStaticFile ?p ?e] =>
            destruct (serveStaticFile_status p e) as [-> | ->]
        end; unfold answer_status; auto.
  - destruct (_ || _); simpl;
      match goal with
      | |- context [serveStaticFile ?p ?e] =>
          destruct (serveStaticFile_status p e) as [-> | ->]
      end; unfold answer_status; auto.
Qed.

(** X2: the suffix [.jpeg] is known to [getContentType] but not to the
    router: a request for a path ending in [.jpeg], with a method other
    than POST and OPTIONS, is answered with the index document and not with
    the asset of that path. *)
Theorem fetch_jpeg_path request env :
  method request ≠ "POST" → method request ≠ "OPTIONS" →
  endsWith (pathname request) ".jpeg" = true →
  fetch request env = (serveStaticFile "/index.html" env, env).
Proof.
  intros Hp Ho Hs. unfold fetch.
  destruct (String.eqb_spec (method request) "OPTIONS"); [done|].
  destruct (String.eqb_spec (method request) "POST"); [done|]. simpl.
  unfold endsWith in *. simpl String.rev in *.
  repeat (apply startsWith_cons in Hs as (? & -> & Hs)). reflexivity.
Qed.

(** X3: a request whose method is not POST, or whose path is no API path,
    leaves the store as it is. *)
Theorem fetch_writes_only_on_api_post request env :
  method request ≠ "POST"
  ∨ endsWith (pathname request) "/worker.js" || startsWith (pathname request) "/api/"
    = false →
  (fetch request env).2 = env.
Proof.
  intros Hcase. unfold fetch.
  destruct (method request =? "OPTIONS")%string; [done|].
  destruct (String.eqb_spec (method request) "POST") as [Hm|Hm].
  - destruct Hcase as [?|Hpath]; [done|]. rewrite Hpath. simpl.
    by repeat case_match.
  - simpl. by repeat case_match.
Qed.

Lemma handlers_wrote_websites d i env cors :
  wrote_websites env (handleGetRequest env cors).2
  ∧ wrote_websites env (handleAddRequest d env cors).2
  ∧ wrote_websites env (handleUpdateRequest d i env cors).2
  ∧ wrote_websites env (handleDeleteRequest i env cors).2.
Proof.
  unfold handleGetRequest, handleAddRequest, handleUpdateRequest,
    handleDeleteRequest, wrote_websites.
  split_and!; repeat case_match; simpl; eauto.
Qed.

Lemma fetch_wrote_websites request env : wrote_websites env (fetch request env).2.
Proof.
  assert (Hsame : wrote_websites env env) by by left.
  unfold fetch.
  destruct (method request =? "OPTIONS")%string; [done|].
  destruct (_ && _); [|by destruct (_ || _)].
  unfold handleApiRequest.
  destruct (negb _); [done|].
  destruct (request_action request) as [[data action]|]; [|done].
  repeat case_match; try apply handlers_wrote_websites; done.
Qed.

(** X4: no request changes what the store holds under a key other than
    "websites": the static assets are never written. *)
Theorem fetch_keeps_other_keys request env key :
  key ≠ "websites" →
  KV_get (fetch request env).2 key = KV_get env key.
Proof.
  intros Hkey. destruct (fetch_wrote_websites request env) as [->|[t ->]]; [done|].
  unfold KV_get, KV_put. simpl. by rewrite lookup_insert_ne.
Qed.

(** The handlers answer with a JSON response, or with a text response
    whose status is not 200. *)
Lemma handler_responses d i env cors :
  api_response cors (handleGetRequest env cors).1
  ∧ api_response cors (handleAddRequest d env cors).1
  ∧ api_response cors (handleUpdateRequest d i env cors).1
  ∧ api_response cors (handleDeleteRequest i env cors).1.
Proof.
  unfold handleGetRequest, handleAddRequest, handleUpdateRequest,
    handleDeleteRequest, api_response.
  split_and!; repeat case_match; simpl; eauto 10.
Qed.

(** X6: every response of [handleApiRequest], given the CORS headers that
    [fetch] passes, carries four headers.  It is a JSON response, whose
    headers are the JSON content type and the three CORS headers, or a text
    response with a status other than 200, whose headers are the three CORS
    headers and the content type that the constructor gives to a string
    body. *)
Theorem api_responses_carry_cors request env :
  let response := (handleApiRequest request env corsHeaders).1 in
  (∃ v, response = json_response v corsHeaders
        ∧ headers response = ("Content-Type", "application/json") :: corsHeaders)
  ∨ (∃ msg st, response = text_response msg st corsHeaders ∧ st ≠ 200
        ∧ headers response
          = (corsHeaders ++ [("Content-Type", "text/plain;charset=UTF-8")])%list).
Proof.
  intros response.
  assert (api_response corsHeaders response) as [[v ->]|(msg & st & -> & Hst)].
  { assert (∀ msg st, st ≠ 200 →
              api_response corsHeaders (text_response msg st corsHeaders)) as Htext.
    { intros msg st Hst. right. by exists msg, st. }
    subst response. unfold handleApiRequest.
    destruct (negb _); [by apply Htext|].
    destruct (request_action request) as [[data action]|]; [|by apply Htext].
    repeat case_match; first [by apply Htext | apply handler_responses];
      exact VNull. }
  - left. by exists v.
  - right. by exists msg, st.
Qed.

(** X7: the response to a request whose method is neither POST nor OPTIONS
    has exactly one header, its content type, and so no CORS header. *)
Theorem static_responses_one_header request env :
  method request ≠ "POST" → method request ≠ "OPTIONS" →
  ∃ content_type,
    headers (fetch request env).1 = [("Content-Type", content_type)].
Proof.
  intros Hp Ho. destruct (fetch_not_post request env Hp Ho) as [path ->]. simpl.
  unfold serveStaticFile. repeat case_match; simpl; eauto.
Qed.

End RouterMore.

(** ** The collection, further *)

Section CollectionMore.
Context {H : Host} {HL : HostLaws H}.
Implicit Types (env : Env) (l : list value) (cors : list (string * string)).

(** X8: a POST request whose body is no JSON text, or is the JSON text
    [null], is answered 500 "Error processing request", and the store is
    left as it is. *)
Theorem malformed_body request env cors :
  method request = "POST" →
  JSON_parse (text request) = None ∨ JSON_parse (text request) = Some VNull →
  handleApiRequest request env cors
  = (text_response "Error processing request" 500 cors, env).
Proof.
  intros Hm Hbody. unfold handleApiRequest, request_action. rewrite Hm. simpl.
  by destruct Hbody as [-> | ->].
Qed.

Lemma strict_eq_other_string action s :
  action ≠ VStr s → strict_eq action (VStr s) = false.
Proof.
  destruct action; try done. simpl. intros Hne.
  destruct (String.eqb_spec s0 s) as [->|]; done.
Qed.

(** X9: a POST request whose body is JSON and whose [action] is none of
    the strings "get", "add", "update" and "delete" (a missing action, a
    number, another string) is answered 400 "Invalid action", and the store
    is left as it is. *)
Theorem invalid_action request data action env cors :
  method request = "POST" →
  JSON_parse (text request) = Some data →
  get_field data "action" = Some action →
  action ≠ VStr "get" → action ≠ VStr "add" →
  action ≠ VStr "update" → action ≠ VStr "delete" →
  handleApiRequest request env cors = (text_response "Invalid action" 400 cors, env).
Proof.
  intros Hm Hdata Haction Hget Hadd Hupd Hdel.
  unfold handleApiRequest, request_action. rewrite Hm, Hdata. simpl.
  rewrite Haction. simpl.
  by rewrite !strict_eq_other_string.
Qed.

(** X10: when the key "websites" holds a text that is not empty and is no
    JSON text, each of the four handlers, whatever its arguments, answers
    500 with its own message and leaves the store as it is. *)
Theorem corrupt_store env t websiteData index websiteId cors :
  KV_get env "websites" = Some t → t ≠ "" → JSON_parse t = None →
  handleGetRequest env cors = (text_response "Error getting websites" 500 cors, env)
  ∧ handleAddRequest websiteData env cors
    = (text_response "Error adding website" 500 cors, env)
  ∧ handleUpdateRequest websiteData index env cors
    = (text_response "Error updating website" 500 cors, env)
  ∧ handleDeleteRequest websiteId env cors
    = (text_response "Error deleting website" 500 cors, env).
Proof.
  intros Hget Hne Hparse.
  assert (parse_websites env = None) as Hp.
  { unfold parse_websites. rewrite Hget. by destruct t. }
  unfold handleGetRequest, handleAddRequest, handleUpdateRequest, handleDeleteRequest.
  by rewrite Hp.
Qed.

(** X11: when the key "websites" holds the JSON text of a value that is no
    array, the get action answers with that value as it is, and the add and
    delete actions answer 500 and leave the store as it is. *)
Theorem non_array_store env t v websiteData websiteId cors :
  KV_get env "websites" = Some t → JSON_parse t = Some v → is_array v = false →
  handleGetRequest env cors = (json_response (VObj [("websites", v)]) cors, env)
  ∧ handleAddRequest websiteData env cors
    = (text_response "Error adding website" 500 cors, env)
  ∧ handleDeleteRequest websiteId env cors
    = (text_response "Error deleting website" 500 cors, env).
Proof.
  intros Hget Hparse Harr.
  assert (parse_websites env = Some v) as Hp.
  { unfold parse_websites. rewrite Hget.
    destruct t; [by rewrite parse_empty in Hparse|done]. }
  unfold handleGetRequest, handleAddRequest, handleDeleteRequest.
  rewrite Hp. by destruct v.
Qed.

(** X12: when the stored collection has a [null] element, the delete
    action answers 500 "Error deleting website" for every identifier and
    leaves the store as it is. *)
Theorem delete_null_element env l websiteId cors :
  stored_collection env l → VNull ∈ l →
  handleDeleteRequest websiteId env cors
  = (text_response "Error deleting website" 500 cors, env).
Proof.
  intros Hst Hnull. apply (delete_throws_on_null env l); [|done].
  by apply stored_parse_websites.
Qed.

(** X13: the add action succeeds for every data, a missing one included;
    the collection stored and read back afterwards is the former one
    followed by what is serialised of the data, which is [null] for a
    missing data. *)
Theorem add_any_data env l websiteData cors :
  stored_collection env l →
  let result := handleAddRequest websiteData env cors in
  result.1 = json_response success cors
  ∧ stored_collection result.2 (l ++ [serialised_element websiteData])
  ∧ handleGetRequest result.2 cors
    = (websites_response (l ++ [serialised_element websiteData]) cors, result.2).
Proof.
  intros Hst result.
  pose proof (stored_after_add env l websiteData cors Hst) as Hafter.
  fold result in Hafter.
  split_and!; [subst result; by rewrite (add_stored env l)|done|].
  by apply get_stored.
Qed.

(** X14: after an add action without data the stored collection ends with
    [null], and from then on every delete action answers 500 and removes
    nothing. *)
Theorem add_without_data_breaks_delete env l websiteId cors :
  stored_collection env l →
  let env' := (handleAddRequest VUndefined env cors).2 in
  stored_collection env' (l ++ [VNull])
  ∧ handleDeleteRequest websiteId env' cors
    = (text_response "Error deleting website" 500 cors, env').
Proof.
  intros Hst env'.
  pose proof (stored_after_add env l VUndefined cors Hst) as Hafter.
  fold env' in Hafter. split; [done|].
  apply (delete_throws_on_null _ (l ++ [VNull])).
  - by apply stored_parse_websites.
  - apply elem_of_app. right. by left.
Qed.

Lemma filter_no_null (f : value → bool) l :
  Forall (λ w, is_null w = false) l →
  Forall (λ w, is_null w = false) (List.filter f l).
Proof.
  induction 1 as [|x l Hx _ IH]; [done|]. simpl. destruct (f x); auto.
Qed.

Lemma filter_twice (f : value → bool) l :
  List.filter f (List.filter f l) = List.filter f l.
Proof.
  induction l as [|x l IH]; [done|]. simpl.
  destruct (f x) eqn:E; simpl; by rewrite ?E, IH.
Qed.

(** The store after a delete holds the elements that were kept. *)
Lemma stored_after_delete env l websiteId cors :
  stored_collection env l →
  Forall (λ w, is_null w = false) l →
  stored_collection (handleDeleteRequest websiteId env cors).2
    (List.filter (λ w, negb (strict_eq (id_of w) websiteId)) l).
Proof.
  intros Hst Hnull.
  destruct (delete_get env l websiteId cors Hst Hnull) as [-> _]. simpl.
  pose proof (stored_after_put env
    (List.filter (λ w, negb (strict_eq (id_of w) websiteId)) l)) as Hafter.
  rewrite serialised_elements_id in Hafter; [done|].
  apply filter_stable. by eapply stored_stable.
Qed.

(** X15: on a stored collection none of whose elements is [null],
    deleting the same identifier a second time changes nothing: the get
    action yields the same collection after one delete and after two. *)
Theorem delete_twice env l websiteId cors :
  stored_collection env l →
  Forall (λ w, is_null w = false) l →
  let once := (handleDeleteRequest websiteId env cors).2 in
  let twice := (handleDeleteRequest websiteId once cors).2 in
  ∃ l', handleGetRequest once cors = (websites_response l' cors, once)
      ∧ handleGetRequest twice cors = (websites_response l' cors, twice).
Proof.
  intros Hst Hnull once twice.
  pose proof (stored_after_delete env l websiteId cors Hst Hnull) as Honce.
  fold once in Honce.
  destruct (delete_get env l websiteId cors Hst Hnull) as [_ Hget1].
  destruct (delete_get once _ websiteId cors Honce (filter_no_null _ l Hnull))
    as [_ Hget2].
  rewrite filter_twice in Hget2. eauto.
Qed.

(** X16: on a stored collection none of whose elements is [null], adding a
    record that is not [null], that holds no infinite number and no
    negative zero, and whose [id] is a primitive that no stored element
    has, and then deleting that [id], gives back the collection there was
    before. *)
Theorem add_then_delete env l R websiteId cors :
  stored_collection env l →
  Forall (λ w, is_null w = false) l →
  json_stable R = true → is_null R = false →
  id_of R = websiteId → is_primitive websiteId = true →
  (∀ w, w ∈ l → strict_eq (id_of w) websiteId = false) →
  let added := (handleAddRequest R env cors).2 in
  let deleted := (handleDeleteRequest websiteId added cors).2 in
  handleGetRequest deleted cors = (websites_response l cors, deleted).
Proof.
  intros Hst Hnull HR HRnull Hid Hprim Hfresh added deleted.
  pose proof (stored_after_add env l R cors Hst) as Hadded.
  fold added in Hadded. rewrite (serialised_element_id R HR) in Hadded.
  assert (Hnull' : Forall (λ w, is_null w = false) (l ++ [R])).
  { apply Forall_app. split; [done|]. by constructor. }
  destruct (delete_get added _ websiteId cors Hadded Hnull') as [_ Hget].
  fold deleted in Hget. rewrite Hget. do 2 f_equal.
  rewrite List.filter_app. simpl. rewrite Hid, strict_eq_refl by done. simpl.
  rewrite app_nil_r. apply filter_all. intros w Hw. by rewrite Hfresh.
Qed.

(** X17: an update without index is answered 400 "Invalid index" and
    writes nothing; an update whose index is [null] or [false], on a
    collection that is not empty, passes the bounds test (both convert to
    0), succeeds, and leaves the collection as it was, since the assignment
    sets a named property that is not serialised. *)
Theorem update_non_numeric_index env l websiteData cors :
  stored_collection env l →
  handleUpdateRequest websiteData VUndefined env cors
  = (text_response "Invalid index" 400 cors, env)
  ∧ (l ≠ [] →
     ∀ index, index = VNull ∨ index = VBool false →
     let result := handleUpdateRequest websiteData index env cors in
     result.1 = json_response success cors
     ∧ handleGetRequest result.2 cors = (websites_response l cors, result.2)).
Proof.
  intros Hst. unfold handleUpdateRequest.
  rewrite (stored_parse_websites env l Hst). simpl. split; [done|].
  intros Hne index Hindex.
  assert (in_bounds index (VArr l) = Some true ∧ array_index index = None) as [Hin Hkey].
  { destruct l; [done|]. by destruct Hindex as [-> | ->]. }
  unfold assign. rewrite Hin, Hkey. simpl. split; [done|].
  apply get_after_put. by eapply stored_stable.
Qed.

(** X18: an empty text under the key "websites" is read as the empty
    collection: the get action yields [[]], and an add action succeeds and
    leaves the collection with one element, what is serialised of the data
    of the request; that is the data itself when it holds no infinite
    number and no negative zero. *)
Theorem blank_store env R cors :
  KV_get env "websites" = Some "" →
  handleGetRequest env cors = (websites_response [] cors, env)
  ∧ let result := handleAddRequest R env cors in
    result.1 = json_response success cors
    ∧ handleGetRequest result.2 cors
      = (websites_response [serialised_element R] cors, result.2)
    ∧ (json_stable R = true → serialised_element R = R).
Proof.
  intros Hget.
  assert (parse_websites env = Some (VArr [])) as Hp.
  { unfold parse_websites. by rewrite Hget. }
  unfold handleGetRequest at 1. rewrite Hp. split; [done|].
  unfold handleAddRequest. rewrite Hp. simpl. split; [done|].
  split; [|apply serialised_element_id].
  apply get_stored. apply (stored_after_put env [R]).
Qed.

(** X19: of two updates at the same position the last one wins: after
    them the get action yields the collection with that position holding
    what is serialised of the second record; that is the second record
    itself when it holds no infinite number and no negative zero. *)
Theorem update_twice env l R1 R2 i cors :
  stored_collection env l →
  (0 ≤ i < Z.of_nat (List.length l))%Z →
  let first := (handleUpdateRequest R1 (VNum i) env cors).2 in
  let second := (handleUpdateRequest R2 (VNum i) first cors).2 in
  handleGetRequest second cors
  = (websites_response (<[Z.to_nat i:=serialised_element R2]> l) cors, second)
  ∧ (json_stable R2 = true → serialised_element R2 = R2).
Proof.
  intros Hst Hi first second. split; [|apply serialised_element_id].
  pose proof (stored_after_update env l R1 i cors Hst Hi) as Hfirst.
  fold first in Hfirst.
  pose proof (stored_after_update first _ R2 i cors Hfirst) as Hsecond.
  fold second in Hsecond. rewrite length_insert, list_insert_insert_eq in Hsecond.
  apply get_stored. by apply Hsecond.
Qed.

Lemma strict_eq_compound a websiteId :
  is_primitive websiteId = false → strict_eq a websiteId = false.
Proof. by destruct a, websiteId. Qed.

(** X20: an identifier that is an array or an object is strictly equal to
    no stored [id], so on a stored collection none of whose elements is
    [null], a delete with such an identifier succeeds and removes
    nothing. *)
Theorem delete_compound_identifier env l websiteId cors :
  stored_collection env l →
  Forall (λ w, is_null w = false) l →
  is_primitive websiteId = false →
  let result := handleDeleteRequest websiteId env cors in
  result.1 = json_response success cors
  ∧ handleGetRequest result.2 cors = (websites_response l cors, result.2).
Proof.
  intros Hst Hnull Hid result. subst result.
  destruct (delete_get env l websiteId cors Hst Hnull) as [Hresult Hget].
  split; [by rewrite Hresult|]. rewrite Hget. do 2 f_equal.
  apply filter_all. intros w _. by rewrite strict_eq_compound.
Qed.

(** Every write of a handler puts a serialised array under the key. *)
Lemma handlers_wrote_collection d i env cors :
  collection_valid env →
  wrote_collection env (handleGetRequest env cors).2
  ∧ wrote_collection env (handleAddRequest d env cors).2
  ∧ wrote_collection env (handleUpdateRequest d i env cors).2
  ∧ wrote_collection env (handleDeleteRequest i env cors).2.
Proof.
  intros Hv. unfold wrote_collection, handleGetRequest, handleAddRequest,
    handleUpdateRequest, handleDeleteRequest.
  destruct (parse_websites env) as [v|] eqn:E; simpl; [|by split_and!; left].
  destruct (collection_valid_parse env v Hv E) as [l ->]. simpl.
  split_and!; [by left|by eauto| |].
  - destruct (in_bounds i (VArr l)) as [[]|]; simpl; eauto.
  - destruct (filterM _ l); simpl; eauto.
Qed.

(** X21: when the key "websites" is absent or holds the JSON text of an
    array, a request writes nothing, or it writes a serialised array under
    that key, and what the store then holds is a stored collection: its
    elements, as they are read back, hold no infinite number and no
    negative zero. *)
Theorem fetch_writes_stored_collection request env :
  collection_valid env →
  (fetch request env).2 = env
  ∨ ∃ l, (fetch request env).2 = KV_put env "websites" (JSON_stringify (VArr l))
       ∧ stored_collection (fetch request env).2 (map serialised_element l)
       ∧ forallb json_stable (map serialised_element l) = true.
Proof.
  intros Hv.
  assert (wrote_collection env (fetch request env).2) as [->|[l Hl]].
  { assert (Hsame : wrote_collection env env) by by left.
    unfold fetch.
    destruct (method request =? "OPTIONS")%string; [done|].
    destruct (_ && _); [|by destruct (_ || _)].
    unfold handleApiRequest.
    destruct (negb _); [done|].
    destruct (request_action request) as [[data action]|]; [|done].
    repeat case_match; first [done | by apply handlers_wrote_collection];
      exact VNull. }
  - by left.
  - right. exists l. split; [done|]. rewrite Hl.
    split; [apply stored_after_put|apply serialised_elements_stable].
Qed.

(** X22: an update whose index is a number but no integer within the
    bounds.  An infinite index and a negative index that is no integer are
    answered 400 "Invalid index" and write nothing; the negative zero does
    what the index 0 does; and an index that is no integer and lies within
    the bounds passes the test, succeeds and leaves the collection as it
    was, since the assignment sets a named property that is not
    serialised. *)
Theorem update_number_index env l websiteData cors :
  stored_collection env l →
  (∀ negative,
     handleUpdateRequest websiteData (VInf negative) env cors
     = (text_response "Invalid index" 400 cors, env))
  ∧ (∀ whole digits,
     handleUpdateRequest websiteData (VFrac true whole digits) env cors
     = (text_response "Invalid index" 400 cors, env))
  ∧ handleUpdateRequest websiteData VNegZero env cors
    = handleUpdateRequest websiteData (VNum 0) env cors
  ∧ (∀ whole digits,
     (whole < N.of_nat (List.length l))%N →
     let result := handleUpdateRequest websiteData (VFrac false whole digits) env cors in
     result.1 = json_response success cors
     ∧ handleGetRequest result.2 cors = (websites_response l cors, result.2)).
Proof.
  intros Hst. unfold handleUpdateRequest.
  rewrite (stored_parse_websites env l Hst). simpl. split_and!.
  - by intros [].
  - done.
  - by destruct l.
  - intros whole digits Hwhole. apply N.ltb_lt in Hwhole. rewrite Hwhole. simpl.
    split; [done|]. apply get_after_put. by eapply stored_stable.
Qed.

Lemma filterM_ext (f g : value → option bool) l :
  (∀ x, f x = g x) → filterM f l = filterM g l.
Proof.
  intros Hfg. induction l as [|x l IH]; [done|]. simpl. by rewrite Hfg, IH.
Qed.

(** A value is strictly equal to the negative zero when it is to 0. *)
Lemma strict_eq_zeros a : strict_eq a VNegZero = strict_eq a (VNum 0).
Proof. by destruct a. Qed.

(** X23: the two zeros are strictly equal, so a delete whose identifier is
    the negative zero does what a delete whose identifier is 0 does,
    whatever the store holds. *)
Theorem delete_negative_zero env cors :
  handleDeleteRequest VNegZero env cors = handleDeleteRequest (VNum 0) env cors.
Proof.
  assert (Hsame : ∀ w, other_id VNegZero w = other_id (VNum 0) w).
  { intros w. unfold other_id.
    destruct (get_field w "id"); simpl; by rewrite ?strict_eq_zeros. }
  unfold handleDeleteRequest, filter_array.
  destruct (parse_websites env) as [v|]; [|done].
  destruct v; simpl; rewrite ?(filterM_ext _ _ _ Hsame); done.
Qed.

End CollectionMore.

(** ** Further runs on the reference host *)

Section MoreRuns.
Import Reference ReferenceFacts.
Local Existing Instance host.
Local Existing Instance reference_laws.

Lemma fetch_jpeg_path_witness :
  method jpeg_request ≠ "POST" ∧ method jpeg_request ≠ "OPTIONS"
  ∧ endsWith (pathname jpeg_request) ".jpeg" = true
  ∧ fetch jpeg_request env_assets
    = ({| body := "<h1>sites</h1>"; status := 200;
          headers := [("Content-Type", "text/html")] |}, env_assets).
Proof.
  split; [discriminate|]. split; [discriminate|]. split; [reflexivity|].
  rewrite (fetch_jpeg_path jpeg_request env_assets) by (discriminate || reflexivity).
  reflexivity.
Defined.

Lemma fetch_writes_only_on_api_post_witness :
  (method jpeg_request ≠ "POST"
   ∨ endsWith (pathname jpeg_request) "/worker.js"
     || startsWith (pathname jpeg_request) "/api/" = false)
  ∧ (fetch jpeg_request env_ab).2 = env_ab.
Proof.
  split; [left; discriminate|].
  apply (fetch_writes_only_on_api_post jpeg_request env_ab). left. discriminate.
Defined.

Lemma fetch_keeps_other_keys_witness :
  "index.html" ≠ "websites"
  ∧ KV_get (fetch add_request env_assets).2 "index.html" = Some "<h1>sites</h1>".
Proof.
  split; [discriminate|].
  rewrite (fetch_keeps_other_keys add_request env_assets "index.html") by discriminate.
  reflexivity.
Defined.

Lemma fetch_collection_valid_witness :
  collection_valid env_ab ∧ collection_valid (fetch add_request env_ab).2.
Proof.
  split; [exact valid_ab|]. apply (fetch_collection_valid add_request env_ab valid_ab).
Defined.

Lemma static_responses_one_header_witness :
  method jpeg_request ≠ "POST" ∧ method jpeg_request ≠ "OPTIONS"
  ∧ ∃ content_type,
      headers (fetch jpeg_request env_assets).1 = [("Content-Type", content_type)].
Proof.
  split; [discriminate|]. split; [discriminate|].
  apply (static_responses_one_header jpeg_request env_assets); discriminate.
Defined.

Lemma malformed_body_witness :
  method broken_request = "POST"
  ∧ JSON_parse (text broken_request) = None
  ∧ handleApiRequest broken_request env_ab corsHeaders
    = (text_response "Error processing request" 500 corsHeaders, env_ab).
Proof.
  split; [reflexivity|]. split; [vm_compute; reflexivity|].
  apply (malformed_body broken_request env_ab corsHeaders); [reflexivity|].
  left. vm_compute. reflexivity.
Defined.

Lemma invalid_action_witness :
  method purge_request = "POST"
  ∧ JSON_parse (text purge_request) = Some (VObj [("action", VStr "purge")])
  ∧ handleApiRequest purge_request env_ab corsHeaders
    = (text_response "Invalid action" 400 corsHeaders, env_ab).
Proof.
  assert (Hbody : JSON_parse (text purge_request) = Some (VObj [("action", VStr "purge")]))
    by (vm_compute; reflexivity).
  split; [reflexivity|]. split; [exact Hbody|].
  apply (invalid_action purge_request _ (VStr "purge") env_ab corsHeaders eq_refl Hbody);
    (reflexivity || discriminate).
Defined.

Lemma corrupt_store_witness :
  KV_get env_corrupt "websites" = Some "{oops"
  ∧ "{oops" ≠ "" ∧ JSON_parse "{oops" = None
  ∧ handleAddRequest site_a env_corrupt corsHeaders
    = (text_response "Error adding website" 500 corsHeaders, env_corrupt).
Proof.
  split; [reflexivity|]. split; [discriminate|]. split; [vm_compute; reflexivity|].
  destruct (corrupt_store env_corrupt "{oops" site_a (VNum 0) (VStr "a") corsHeaders)
    as (_ & Hadd & _); [reflexivity|discriminate|vm_compute; reflexivity|].
  exact Hadd.
Defined.

Lemma non_array_store_witness :
  KV_get env_number "websites" = Some (stringify (VNum 5))
  ∧ JSON_parse (stringify (VNum 5)) = Some (VNum 5)
  ∧ is_array (VNum 5) = false
  ∧ handleGetRequest env_number corsHeaders
    = (json_response (VObj [("websites", VNum 5)]) corsHeaders, env_number)
  ∧ handleAddRequest site_a env_number corsHeaders
    = (text_response "Error adding website" 500 corsHeaders, env_number).
Proof.
  assert (Hp : JSON_parse (stringify (VNum 5)) = Some (VNum 5))
    by (vm_compute; reflexivity).
  split; [reflexivity|]. split; [exact Hp|]. split; [reflexivity|].
  destruct (non_array_store env_number _ (VNum 5) site_a (VStr "a") corsHeaders
              eq_refl Hp eq_refl) as (Hget & Hadd & _).
  by split.
Defined.

Lemma delete_null_element_witness :
  stored_collection env_with_null [site_a; VNull]
  ∧ VNull ∈ [site_a; VNull]
  ∧ handleDeleteRequest (VStr "a") env_with_null corsHeaders
    = (text_response "Error deleting website" 500 corsHeaders, env_with_null).
Proof.
  assert (Hin : VNull ∈ [site_a; VNull]) by (right; left).
  split; [exact stored_with_null|]. split; [exact Hin|].
  apply (delete_null_element env_with_null [site_a; VNull] (VStr "a") corsHeaders
           stored_with_null Hin).
Defined.

Lemma add_any_data_witness :
  stored_collection env_ab [site_a; site_b]
  ∧ handleGetRequest (handleAddRequest VUndefined env_ab corsHeaders).2 corsHeaders
    = (websites_response [site_a; site_b; VNull] corsHeaders,
       (handleAddRequest VUndefined env_ab corsHeaders).2).
Proof.
  split; [exact stored_ab|].
  by destruct (add_any_data env_ab [site_a; site_b] VUndefined corsHeaders stored_ab)
    as (_ & _ & Hget).
Defined.

Lemma add_without_data_breaks_delete_witness :
  stored_collection env_ab [site_a; site_b]
  ∧ handleDeleteRequest (VStr "a") (handleAddRequest VUndefined env_ab corsHeaders).2
      corsHeaders
    = (text_response "Error deleting website" 500 corsHeaders,
       (handleAddRequest VUndefined env_ab corsHeaders).2).
Proof.
  split; [exact stored_ab|].
  by destruct (add_without_data_breaks_delete env_ab [site_a; site_b] (VStr "a")
                 corsHeaders stored_ab) as [_ Hdel].
Defined.

Lemma delete_twice_witness :
  stored_collection env_ab [site_a; site_b]
  ∧ Forall (λ w, is_null w = false) [site_a; site_b]
  ∧ ∃ l',
      handleGetRequest (handleDeleteRequest (VStr "a") env_ab corsHeaders).2 corsHeaders
      = (websites_response l' corsHeaders,
         (handleDeleteRequest (VStr "a") env_ab corsHeaders).2)
      ∧ handleGetRequest
          (handleDeleteRequest (VStr "a")
             (handleDeleteRequest (VStr "a") env_ab corsHeaders).2 corsHeaders).2
          corsHeaders
        = (websites_response l' corsHeaders,
           (handleDeleteRequest (VStr "a")
              (handleDeleteRequest (VStr "a") env_ab corsHeaders).2 corsHeaders).2).
Proof.
  split; [exact stored_ab|]. split; [exact no_null_ab|].
  apply (delete_twice env_ab [site_a; site_b] (VStr "a") corsHeaders stored_ab no_null_ab).
Defined.

Lemma add_then_delete_witness :
  stored_collection env_ab [site_a; site_b]
  ∧ Forall (λ w, is_null w = false) [site_a; site_b]
  ∧ json_stable site_7 = true ∧ is_null site_7 = false
  ∧ id_of site_7 = VNum 7 ∧ is_primitive (VNum 7) = true
  ∧ handleGetRequest
      (handleDeleteRequest (VNum 7) (handleAddRequest site_7 env_ab corsHeaders).2
         corsHeaders).2 corsHeaders
    = (websites_response [site_a; site_b] corsHeaders,
       (handleDeleteRequest (VNum 7) (handleAddRequest site_7 env_ab corsHeaders).2
          corsHeaders).2).
Proof.
  split; [exact stored_ab|]. split; [exact no_null_ab|].
  split; [reflexivity|]. split; [reflexivity|]. split; [reflexivity|].
  split; [reflexivity|].
  apply (add_then_delete env_ab [site_a; site_b] site_7 (VNum 7) corsHeaders
           stored_ab no_null_ab eq_refl eq_refl eq_refl eq_refl).
  intros w Hw. apply elem_of_cons in Hw as [->|Hw]; [reflexivity|].
  apply elem_of_cons in Hw as [->|Hw]; [reflexivity|]. by apply elem_of_nil in Hw.
Defined.

Lemma update_non_numeric_index_witness :
  stored_collection env_ab [site_a; site_b]
  ∧ handleUpdateRequest site_a2 VUndefined env_ab corsHeaders
    = (text_response "Invalid index" 400 corsHeaders, env_ab)
  ∧ handleGetRequest (handleUpdateRequest site_a2 VNull env_ab corsHeaders).2 corsHeaders
    = (websites_response [site_a; site_b] corsHeaders,
       (handleUpdateRequest site_a2 VNull env_ab corsHeaders).2).
Proof.
  split; [exact stored_ab|].
  destruct (update_non_numeric_index env_ab [site_a; site_b] site_a2 corsHeaders stored_ab)
    as [Hundef Hnull].
  split; [exact Hundef|].
  by destruct (Hnull ltac:(discriminate) VNull (or_introl eq_refl)) as [_ Hget].
Defined.

Lemma blank_store_witness :
  KV_get env_blank "websites" = Some ""
  ∧ handleGetRequest env_blank corsHeaders = (websites_response [] corsHeaders, env_blank)
  ∧ handleGetRequest (handleAddRequest site_inf env_blank corsHeaders).2 corsHeaders
    = (websites_response [site_inf_read] corsHeaders,
       (handleAddRequest site_inf env_blank corsHeaders).2).
Proof.
  split; [reflexivity|].
  destruct (blank_store env_blank site_inf corsHeaders eq_refl)
    as (Hget & _ & Hadd & _).
  by split.
Defined.

Lemma update_twice_witness :
  stored_collection env_ab [site_a; site_b]
  ∧ (0 ≤ 1 < Z.of_nat (List.length [site_a; site_b]))%Z
  ∧ handleGetRequest
      (handleUpdateRequest site_inf (VNum 1)
         (handleUpdateRequest untitled (VNum 1) env_ab corsHeaders).2 corsHeaders).2
      corsHeaders
    = (websites_response [site_a; site_inf_read] corsHeaders,
       (handleUpdateRequest site_inf (VNum 1)
          (handleUpdateRequest untitled (VNum 1) env_ab corsHeaders).2 corsHeaders).2).
Proof.
  split; [exact stored_ab|]. split; [simpl; lia|].
  by destruct (update_twice env_ab [site_a; site_b] untitled site_inf 1 corsHeaders
                 stored_ab ltac:(simpl; lia)) as [Hget _].
Defined.

Lemma delete_compound_identifier_witness :
  stored_collection env_ab [site_a; site_b]
  ∧ Forall (λ w, is_null w = false) [site_a; site_b]
  ∧ is_primitive (VArr [VStr "a"]) = false
  ∧ handleGetRequest (handleDeleteRequest (VArr [VStr "a"]) env_ab corsHeaders).2
      corsHeaders
    = (websites_response [site_a; site_b] corsHeaders,
       (handleDeleteRequest (VArr [VStr "a"]) env_ab corsHeaders).2).
Proof.
  split; [exact stored_ab|]. split; [exact no_null_ab|]. split; [reflexivity|].
  by destruct (delete_compound_identifier env_ab [site_a; site_b] (VArr [VStr "a"])
                 corsHeaders stored_ab no_null_ab eq_refl) as [_ Hget].
Defined.

Lemma fetch_writes_stored_collection_witness :
  collection_valid env_ab
  ∧ ((fetch add_request env_ab).2 = env_ab
     ∨ ∃ l, (fetch add_request env_ab).2
            = KV_put env_ab "websites" (JSON_stringify (VArr l))
          ∧ stored_collection (fetch add_request env_ab).2 (map serialised_element l)
          ∧ forallb json_stable (map serialised_element l) = true).
Proof.
  split; [exact valid_ab|].
  apply (fetch_writes_stored_collection add_request env_ab valid_ab).
Defined.

(** The indices [Infinity], [-0.5], [-0] and [0.5] on [[site_a; site_b]]. *)
Lemma update_number_index_witness :
  stored_collection env_ab [site_a; site_b]
  ∧ handleUpdateRequest site_7 (VInf false) env_ab corsHeaders
    = (text_response "Invalid index" 400 corsHeaders, env_ab)
  ∧ handleUpdateRequest site_7 (VFrac true 0 5) env_ab corsHeaders
    = (text_response "Invalid index" 400 corsHeaders, env_ab)
  ∧ handleGetRequest (handleUpdateRequest site_7 VNegZero env_ab corsHeaders).2
      corsHeaders
    = (websites_response [site_7; site_b] corsHeaders,
       (handleUpdateRequest site_7 VNegZero env_ab corsHeaders).2)
  ∧ (0 < N.of_nat (List.length [site_a; site_b]))%N
  ∧ handleGetRequest (handleUpdateRequest site_7 (VFrac false 0 5) env_ab corsHeaders).2
      corsHeaders
    = (websites_response [site_a; site_b] corsHeaders,
       (handleUpdateRequest site_7 (VFrac false 0 5) env_ab corsHeaders).2).
Proof.
  destruct (update_number_index env_ab [site_a; site_b] site_7 corsHeaders stored_ab)
    as (Hinf & Hneg & Hzero & Hfrac).
  split; [exact stored_ab|]. split; [exact (Hinf false)|].
  split; [exact (Hneg 0%N 5%positive)|].
  split.
  - rewrite Hzero.
    exact (get_stored _ _ corsHeaders
             (stored_after_update env_ab [site_a; site_b] site_7 0 corsHeaders
                stored_ab ltac:(simpl; lia))).
  - split; [reflexivity|].
    by destruct (Hfrac 0%N 5%positive eq_refl) as [_ Hget].
Defined.

End MoreRuns.
